(** * M-Top category processors: a shallow embedding and its properties

    The six category processors of [utils/] ([merchant_box], [paybill_box],
    [customer_transfer_box], [receive_money_box], [cash_withdrawal_box],
    [airtime_box]) are pandas pipelines over one data frame.  They are embedded
    here as functions over a list of rows; the plotting calls, which only
    consume their argument, are left out except for the frame they are given.

    Conventions of the embedding.
    - A data frame is the list of its rows in index order.  Cells hold no
      missing value (the ledger comes cleaned from the ingestion step); the one
      place where pandas creates a missing value itself, the unmatched group of
      [str.extract], is an [option].
    - Text is ASCII: a [string] of the standard library.
    - Amounts are decimal currency values; they are held exactly, as a number
      of hundredths of a shilling ([Z]).  Binary rounding of float64 is not
      part of the model.
    - pandas [groupby] returns its groups in ascending key order, the rows of a
      group in frame order.
    - pandas [sort_values] is modelled as a stable sort (the default sort is
      insertion sort on short columns; [nargsort] reverses before and after
      sorting when descending, so that equal keys keep their frame order in
      both directions). *)

From Stdlib Require Import List ZArith Lia Bool Ascii String NArith.
From Stdlib Require Import Sorting.Sorted Permutation.
Import ListNotations.

Local Open Scope string_scope.
Local Open Scope Z_scope.

(** ** Text operations *)

Module Str.

(** The line feed, the only character [.] refuses and [$] looks at. *)
Definition LF : ascii := "010"%char.

Definition code (c : ascii) : N := N_of_ascii c.

Definition is_upper (c : ascii) : bool :=
  ((65 <=? code c) && (code c <=? 90))%N.

Definition is_lower (c : ascii) : bool :=
  ((97 <=? code c) && (code c <=? 122))%N.

Definition is_cased (c : ascii) : bool := is_upper c || is_lower c.

Definition upper (c : ascii) : ascii :=
  if is_lower c then ascii_of_N (code c - 32) else c.

Definition lower (c : ascii) : ascii :=
  if is_upper c then ascii_of_N (code c + 32) else c.

(** [\s] of Python's [re] on [str], restricted to ASCII: the characters
    9 to 13, 28 to 31 and the space. *)
Definition is_space (c : ascii) : bool :=
  (((9 <=? code c) && (code c <=? 13))
   || ((28 <=? code c) && (code c <=? 32)))%N.

(** [str.title]: a cased character is upper-cased when the character
    before it is not cased, lower-cased otherwise. *)
Fixpoint title_from (previous_is_cased : bool) (s : string) : string :=
  match s with
  | EmptyString => EmptyString
  | String c s' =>
      String (if previous_is_cased then lower c else upper c)
             (title_from (is_cased c) s')
  end.

Definition title (s : string) : string := title_from false s.

(** [pat in s] for a literal pattern: what [Series.str.contains] computes
    for the markers of the processors, none of which holds a regex
    metacharacter. *)
Fixpoint contains (pat s : string) : bool :=
  prefix pat s ||
  match s with
  | EmptyString => false
  | String _ s' => contains pat s'
  end.

(** [str.contains] with the pattern of one or more asterisks: some
    asterisk occurs. *)
Fixpoint has_star (s : string) : bool :=
  match s with
  | EmptyString => false
  | String c s' => (c =? "*")%char || has_star s'
  end.

Fixpoint has_char (p : ascii -> bool) (s : string) : bool :=
  match s with
  | EmptyString => false
  | String c s' => p c || has_char p s'
  end.

(** [s.partition(" ")[2]]: what follows the first space, empty when [s]
    holds no space. *)
Fixpoint partition_2 (s : string) : string :=
  match s with
  | EmptyString => EmptyString
  | String c s' => if (c =? " ")%char then s' else partition_2 s'
  end.

(** [s.endswith(suf)] *)
Fixpoint endswith (suf s : string) : bool :=
  (s =? suf)%string ||
  match s with
  | EmptyString => false
  | String _ s' => endswith suf s'
  end.

(** [", ".join(xs)] *)
Fixpoint join (sep : string) (xs : list string) : string :=
  match xs with
  | [] => ""
  | [x] => x
  | x :: xs' => x ++ sep ++ join sep xs'
  end.

(** *** The pay-bill pattern

    [paybill_box] extracts two groups with one regular expression: a lazy
    group of any characters, followed either by white space, the literal
    text Acc. (with its dot), white space and a greedy group of any
    characters, or by the end-of-string anchor. *)

(** Drop the longest run of white space in front of [s]. *)
Fixpoint skip_space (s : string) : string :=
  match s with
  | String c s' => if is_space c then skip_space s' else s
  | EmptyString => EmptyString
  end.

(** One or more white-space characters: the greedy run is the only one
    that can be followed by a character that is not white space. *)
Definition space_plus (s : string) : option string :=
  match s with
  | String c s' => if is_space c then Some (skip_space s') else None
  | EmptyString => None
  end.

Fixpoint strip_prefix (p s : string) : option string :=
  match p, s with
  | EmptyString, _ => Some s
  | String a p', String b s' =>
      if (a =? b)%char then strip_prefix p' s' else None
  | String _ _, EmptyString => None
  end.

(** The greedy group that ends the pattern: up to the next line feed. *)
Fixpoint line (s : string) : string :=
  match s with
  | EmptyString => EmptyString
  | String c s' => if (c =? LF)%char then EmptyString else String c (line s')
  end.

(** The first alternative (white space, Acc., white space, greedy group)
    matched at the front of [s]; the result is its group. *)
Definition acc_alt (s : string) : option string :=
  match space_plus s with
  | None => None
  | Some s1 =>
      match strip_prefix "Acc." s1 with
      | None => None
      | Some s2 =>
          match space_plus s2 with
          | None => None
          | Some s3 => Some (line s3)
          end
      end
  end.

(** The end anchor: at the end, or in front of a line feed that ends the string. *)
Definition at_dollar (s : string) : bool :=
  match s with
  | EmptyString => true
  | String c EmptyString => (c =? LF)%char
  | _ => false
  end.

(** The whole pattern matched from the front of [s]: the lazy group grows
    one character at a time and stops as soon as an alternative matches. *)
Fixpoint match_here (s : string) : option (string * option string) :=
  match acc_alt s with
  | Some a => Some (EmptyString, Some a)
  | None =>
      if at_dollar s then Some (EmptyString, None)
      else
        match s with
        | EmptyString => None
        | String c s' =>
            if (c =? LF)%char then None
            else
              match match_here s' with
              | Some (g1, g2) => Some (String c g1, g2)
              | None => None
              end
        end
  end.

(** [re.search]: the first start position at which the pattern matches. *)
Fixpoint search (s : string) : option (string * option string) :=
  match match_here s with
  | Some r => Some r
  | None =>
      match s with
      | EmptyString => None
      | String _ s' => search s'
      end
  end.

(** [Series.str.extract] on one cell: the two groups, a group that took
    no part in the match being missing. *)
Definition extract (s : string) : option string * option string :=
  match search s with
  | Some (g1, g2) => (Some g1, g2)
  | None => (None, None)
  end.

(** Shapes of a cell used in the statements on the pattern. *)
Definition single_line (s : string) : bool :=
  negb (has_char (fun c => (c =? LF)%char) s).

Fixpoint ends_space (s : string) : bool :=
  match s with
  | EmptyString => false
  | String c EmptyString => is_space c
  | String _ s' => ends_space s'
  end.

Definition starts_space (s : string) : bool :=
  match s with
  | EmptyString => false
  | String c _ => is_space c
  end.

End Str.

(** ** Data model *)

(** One row of the ledger, with the columns the processors read.  The
    amounts [withdrawn] and [paid_in] are in hundredths of a shilling. *)
Record Row : Type := mkRow {
  type_class : string;
  type_desc : string;
  entity : string;
  withdrawn : Z;
  paid_in : Z
}.

Definition DataFrame : Type := list Row.

Definition set_entity (r : Row) (e : string) : Row :=
  mkRow (type_class r) (type_desc r) e (withdrawn r) (paid_in r).

Definition set_type_desc (r : Row) (d : string) : Row :=
  mkRow (type_class r) d (entity r) (withdrawn r) (paid_in r).

(** What a processor can raise. *)
Inductive exn : Type := IndexError | KeyError.

Inductive result (A : Type) : Type :=
| Ok (a : A)
| Raise (e : exn).

Arguments Ok {A} a.
Arguments Raise {A} e.

(** ** Frame operations *)

Definition sumZ (l : list Z) : Z := fold_right Z.add 0 l.

Definition count {A : Type} (l : list A) : Z := Z.of_nat (List.length l).

Arguments sumZ : simpl never.
Arguments count : simpl never.

(** [.astype(int)] on an amount: the whole shillings, rounding toward zero. *)
Definition astype_int (cents : Z) : Z := Z.quot cents 100.

(** [round(x, 2)]: an amount has two decimals already. *)
Definition round_2 (cents : Z) : Z := cents.

(** [df.head(n)]; a negative [n] leaves out the last [-n] rows. *)
Definition head {A : Type} (n : Z) (l : list A) : list A :=
  if n <? 0 then firstn (List.length l - Z.to_nat (- n)) l
  else firstn (Z.to_nat n) l.

(** [df.iloc[0]]: out of bounds on the empty frame. *)
Definition iloc_0 {A : Type} (l : list A) : result A :=
  match l with
  | [] => Raise IndexError
  | x :: _ => Ok x
  end.

(** Orders on group keys: [groupby] sorts its groups by key. *)
Class KeyOrder (K : Type) : Type := { kcmp : K -> K -> comparison }.

#[export] Instance string_order : KeyOrder string :=
  {| kcmp := String.compare |}.

#[export] Instance pair_order {K1 K2 : Type} `{KeyOrder K1} `{KeyOrder K2} :
  KeyOrder (K1 * K2) :=
  {| kcmp := fun a b =>
       match kcmp (fst a) (fst b) with
       | Eq => kcmp (snd a) (snd b)
       | c => c
       end |}.

(** What the facts on [groupby] ask of a key order. *)
Class KeyOrderLaws (K : Type) `{KeyOrder K} : Prop := {
  kcmp_eq : forall a b : K, kcmp a b = Eq -> a = b;
  kcmp_refl : forall a : K, kcmp a a = Eq;
  kcmp_antisym : forall a b : K, kcmp a b = CompOpp (kcmp b a);
  kcmp_trans : forall a b c : K, kcmp a b = Lt -> kcmp b c = Lt -> kcmp a c = Lt
}.

Definition klt {K : Type} `{KeyOrder K} (a b : K) : Prop := kcmp a b = Lt.

Definition keqb {K : Type} `{KeyOrder K} (a b : K) : bool :=
  match kcmp a b with
  | Eq => true
  | _ => false
  end.

Section GroupBy.

Context {K : Type} `{KeyOrder K} {A : Type}.
Variable key : A -> K.

(** Put row [r] in front of the group of its key, which is created at its
    place in key order when [r] is the first row seen with that key. *)
Fixpoint group_insert (r : A) (gs : list (K * list A)) : list (K * list A) :=
  match gs with
  | [] => [(key r, [r])]
  | (k, rs) :: gs' =>
      match kcmp (key r) k with
      | Lt => (key r, [r]) :: gs
      | Eq => (k, r :: rs) :: gs'
      | Gt => (k, rs) :: group_insert r gs'
      end
  end.

(** [df.groupby(key)]: the groups in ascending key order, each with its
    rows in frame order. *)
Definition groupby (rows : list A) : list (K * list A) :=
  fold_right group_insert [] rows.

(** The keys of a grouped frame, and the rows filed under key [k]. *)
Definition keys (gs : list (K * list A)) : list K := map fst gs.

Fixpoint group_of (k : K) (gs : list (K * list A)) : list A :=
  match gs with
  | [] => []
  | (k', rs) :: gs' => if keqb k k' then rs else group_of k gs'
  end.

End GroupBy.

Section SortValues.

Context {A : Type}.
Variable col : A -> Z.

(** The order of [sort_values] on column [col]. *)
Definition col_le (ascending : bool) (x y : A) : bool :=
  if ascending then col x <=? col y else col y <=? col x.

(** Strictly before in the order of the sort. *)
Definition col_lt (ascending : bool) (x y : A) : Prop :=
  if ascending then col x < col y else col y < col x.

(** [x] comes before [y]: strictly by the column, or on a tie by [R]. *)
Definition lex (ascending : bool) (R : A -> A -> Prop) (x y : A) : Prop :=
  col_lt ascending x y \/ (col x = col y /\ R x y).

(** [x] goes in front of the first row it does not have to follow. *)
Fixpoint insert_row (ascending : bool) (x : A) (l : list A) : list A :=
  match l with
  | [] => [x]
  | y :: l' =>
      if col_le ascending x y then x :: l
      else y :: insert_row ascending x l'
  end.

(** [df.sort_values(by=col, ascending=...)], stable. *)
Definition sort_values (ascending : bool) (l : list A) : list A :=
  fold_right (insert_row ascending) [] l.

(** [df.nlargest(n, col)] with [keep="first"]: the first [n] rows of the
    frame in descending stable order; nothing when [n <= 0]. *)
Definition nlargest (n : Z) (l : list A) : list A :=
  if n <=? 0 then [] else firstn (Z.to_nat n) (sort_values false l).

End SortValues.

(** The aggregate frame of four processors: columns entity, count, sum. *)
Record Agg : Type := mkAgg {
  agg_entity : string;
  agg_count : Z;
  agg_sum : Z
}.

(** [.groupby("entity").agg(count=("withdrawn","count"),
    sum=("withdrawn","sum"))] followed by [reset_index]. *)
Definition agg_withdrawn (rows : DataFrame) : list Agg :=
  map (fun g => mkAgg (fst g) (count (snd g)) (sumZ (map withdrawn (snd g))))
      (groupby entity rows).

(** *** Clean-up of masked names

    [customer_transfer_box] and [receive_money_box] hold the same
    [try]/[except] block.  Its body rewrites the rows whose entity holds an
    asterisk; its handler rewrites the other rows. *)

Definition mask (r : Row) : bool := Str.has_star (entity r).

(** [.str.partition(" ")[2].str.title()] on one cell. *)
Definition masked_name (raw : string) : string :=
  Str.title (Str.partition_2 raw).

(** The body of the [try]: the masked rows get what follows the first space,
    title-cased.  [str.partition] of a selection without rows is a frame
    without columns, and asking for its column 2 is a [KeyError]. *)
Definition partition_title_masked (frame : DataFrame) : result DataFrame :=
  if existsb mask frame
  then Ok (map (fun r =>
                  if mask r
                  then set_entity r (masked_name (entity r))
                  else r)
               frame)
  else Raise KeyError.

(** The handler: the rows that are not masked get title-cased. *)
Definition title_unmasked (frame : DataFrame) : DataFrame :=
  map (fun r => if negb (mask r) then set_entity r (Str.title (entity r)) else r)
      frame.

Definition clean_entities (frame : DataFrame) : DataFrame :=
  match partition_title_masked frame with
  | Ok frame' => frame'
  | Raise _ => title_unmasked frame
  end.

(** Before [b] in the order of entity names. *)
Definition by_entity (a b : Agg) : Prop := klt (agg_entity a) (agg_entity b).

(** A frame ranked as the processors that sort descending leave it: by
    total, largest first, equal totals in entity-name order. *)
Definition ranked (frame : list Agg) : Prop :=
  StronglySorted (lex agg_sum false by_entity) frame.

(** ** The processors *)

Module Merchant.

Record t : Type := mk {
  topMerchant_fig : list Agg;
  totalspend : Z;
  totalcharges : Z;
  merchantCount : Z;
  merchantFrame : list Agg
}.

Definition principal (filtered_df : DataFrame) : DataFrame :=
  filter (fun r => Str.contains "Merchant Payment" (type_class r)) filtered_df.

Definition frame (filtered_df : DataFrame) : list Agg :=
  sort_values agg_sum false (agg_withdrawn (principal filtered_df)).

Definition merchant_box (filtered_df : DataFrame) (nlargest : Z) : t :=
  let merchantFrame := frame filtered_df in
  {| topMerchant_fig := sort_values agg_sum true (head nlargest merchantFrame);
     totalspend := sumZ (map agg_sum merchantFrame);
     totalcharges :=
       round_2
         (sumZ (map withdrawn
                  (filter (fun r => Str.contains "Pay Merchant" (type_class r))
                          filtered_df)));
     merchantCount := sumZ (map agg_count merchantFrame);
     merchantFrame := merchantFrame |}.

End Merchant.

Module Paybill.

(** A pay-bill row with the two columns [str.extract] adds. *)
Record XRow : Type := mkX {
  row : Row;
  entity2 : option string;
  accounts : option string
}.

(** The aggregate frame: columns entity2, count, sum, accounts. *)
Record PAgg : Type := mkPAgg {
  p_entity2 : string;
  p_count : Z;
  p_sum : Z;
  p_accounts : string
}.

Record t : Type := mk {
  toppaybill_fig : list PAgg;
  totalsent : Z;
  totalcharges : Z;
  paybillFrame : list PAgg;
  totaltransactions : Z
}.

(** [str(x)] of a cell: a missing value prints as nan. *)
Definition str (x : option string) : string :=
  match x with
  | Some s => s
  | None => "nan"
  end.

Definition agg_concat (x : list (option string)) : string :=
  Str.join ", " (map str x).

Definition principal (filtered_df : DataFrame) : DataFrame :=
  filter (fun r => Str.contains "Pay Bill" (type_class r)
                   && negb (Str.contains "Charge" (type_desc r)))
         filtered_df.

(** Columns entity, count, total of the charge rows, grouped by entity. *)
Definition paybillCharges_df (filtered_df : DataFrame) : list (string * Z * Z) :=
  map (fun g => (fst g, count (snd g), sumZ (map withdrawn (snd g))))
      (groupby entity
         (filter (fun r => Str.contains "Pay Bill" (type_class r)
                           && Str.contains "Charge" (type_desc r))
                 filtered_df)).

(** [paybillCharges_df.iloc[0, 1] if not paybillCharges_df.empty else 0];
    the entity is the index, so that column 1 is the total. *)
Definition paybillCharges (filtered_df : DataFrame) : Z :=
  match paybillCharges_df filtered_df with
  | [] => 0
  | (_, _, total) :: _ => total
  end.

(** The single largest per-entity total of the charge rows, as the
    specification words the charge total; zero without charge rows. *)
Definition largest_charge (filtered_df : DataFrame) : Z :=
  match map snd (paybillCharges_df filtered_df) with
  | [] => 0
  | t :: ts => fold_right Z.max t ts
  end.

Definition extract_row (r : Row) : XRow :=
  let g := Str.extract (entity r) in mkX r (fst g) (snd g).

(** [groupby] leaves out the rows whose key is missing. *)
Fixpoint keyed (rows : list XRow) : list (string * XRow) :=
  match rows with
  | [] => []
  | x :: rows' =>
      match entity2 x with
      | Some k => (k, x) :: keyed rows'
      | None => keyed rows'
      end
  end.

Definition aggregate (rows : list XRow) : list PAgg :=
  map (fun g =>
         mkPAgg (fst g)
                (count (snd g))
                (sumZ (map (fun kx => withdrawn (row (snd kx))) (snd g)))
                (agg_concat (map (fun kx => accounts (snd kx)) (snd g))))
      (groupby fst (keyed rows)).

Definition frame (filtered_df : DataFrame) : list PAgg :=
  sort_values p_sum false (aggregate (map extract_row (principal filtered_df))).

(** The business name and the account reference of a ledger row. *)
Definition business_of (r : Row) : option string := fst (Str.extract (entity r)).

Definition account_of (r : Row) : option string := snd (Str.extract (entity r)).

Definition has_business (k : string) (r : Row) : bool :=
  match business_of r with
  | Some k' => (k' =? k)%string
  | None => false
  end.

(** The rows of business name [k], in ledger order. *)
Definition group (k : string) (rows : DataFrame) : DataFrame :=
  filter (has_business k) rows.

(** The side attribute as the specification words it: the account
    references seen, empty where the cell has none, each once, in order of
    first appearance, comma-joined. *)
Fixpoint first_appearances (l : list string) : list string :=
  match l with
  | [] => []
  | x :: l' => x :: filter (fun y => negb (y =? x)%string) (first_appearances l')
  end.

Definition seen_accounts (rows : DataFrame) : string :=
  Str.join ", "
    (first_appearances
       (map (fun r => match account_of r with Some a => a | None => "" end)
            rows)).

Definition by_entity2 (a b : PAgg) : Prop := klt (p_entity2 a) (p_entity2 b).

Definition ranked (frame : list PAgg) : Prop :=
  StronglySorted (lex p_sum false by_entity2) frame.

Definition paybill_box (filtered_df : DataFrame) (nlargest : Z) : t :=
  let paybillFrame := frame filtered_df in
  {| toppaybill_fig := sort_values p_sum true (head nlargest paybillFrame);
     totalsent := astype_int (sumZ (map p_sum paybillFrame));
     totalcharges := round_2 (paybillCharges filtered_df);
     paybillFrame := paybillFrame;
     totaltransactions := sumZ (map p_count paybillFrame) |}.

End Paybill.

Module Transfer.

Record t : Type := mk {
  topTransfer_fig : list Agg;
  totalspend : Z;
  totalcharges : Z;
  totalTransactions : Z;
  transferFrame : list Agg
}.

Definition in_category (filtered_df : DataFrame) : DataFrame :=
  filter (fun r => Str.contains "Customer Transfer" (type_class r)) filtered_df.

Definition charge_rows (filtered_df : DataFrame) : DataFrame :=
  filter (fun r => (type_desc r =? "of Funds Charge")%string)
         (in_category filtered_df).

Definition principal (filtered_df : DataFrame) : DataFrame :=
  filter (fun r => negb (type_desc r =? "of Funds Charge")%string)
         (in_category filtered_df).

Definition cleaned (filtered_df : DataFrame) : DataFrame :=
  clean_entities (principal filtered_df).

Definition frame (filtered_df : DataFrame) : list Agg :=
  sort_values agg_sum false (agg_withdrawn (cleaned filtered_df)).

(** The charge rows grouped by type_class, summed, sorted descending:
    columns type_class, sum after [reset_index]. *)
Definition transferChargesFrame (filtered_df : DataFrame) : list (string * Z) :=
  sort_values snd false
    (map (fun g => (fst g, sumZ (map withdrawn (snd g))))
         (groupby type_class (charge_rows filtered_df))).

Definition customer_transfer_box (filtered_df : DataFrame) (nlargest : Z)
  : result t :=
  let transferFrame := frame filtered_df in
  let totalTransactions := sumZ (map agg_count transferFrame) in
  (* .iloc[0, 1] *)
  match iloc_0 (transferChargesFrame filtered_df) with
  | Raise e => Raise e
  | Ok first =>
      Ok {| topTransfer_fig :=
              sort_values (fun a => Z.abs (agg_sum a)) true
                          (head nlargest transferFrame);
            totalspend := astype_int (sumZ (map agg_sum transferFrame));
            totalcharges := snd first;
            totalTransactions := totalTransactions;
            transferFrame := transferFrame |}
  end.

End Transfer.

Module Receive.

(** The aggregate frame: columns entity, type_desc, sum, count. *)
Record RAgg : Type := mkRAgg {
  r_entity : string;
  r_type_desc : string;
  r_sum : Z;
  r_count : Z
}.

Record t : Type := mk {
  topReceive_fig : list RAgg;
  totalreceived : Z;
  totalreceivedTransactions : Z;
  receiveFrame : list RAgg
}.

Definition individual (filtered_df : DataFrame) : DataFrame :=
  filter (fun r => Str.contains "Funds received" (type_class r)
                   && negb (Str.contains "Business" (type_desc r)))
         filtered_df.

Definition receiveFrame_business (filtered_df : DataFrame) : DataFrame :=
  filter (fun r => Str.contains "Funds received" (type_class r)
                   && Str.contains "Business" (type_desc r))
         filtered_df.

(** The ledger rows the processor aggregates. *)
Definition principal (filtered_df : DataFrame) : DataFrame :=
  (individual filtered_df ++ receiveFrame_business filtered_df)%list.

(** [pd.concat] of the cleaned individual rows and the business rows. *)
Definition concat (filtered_df : DataFrame) : DataFrame :=
  (clean_entities (individual filtered_df)
     ++ receiveFrame_business filtered_df)%list.

Definition tag (x : string) : string :=
  if Str.endswith "from" x then "Individual" else "Business".

Definition tagged (filtered_df : DataFrame) : DataFrame :=
  map (fun r => set_type_desc r (tag (type_desc r))) (concat filtered_df).

(** The group key of an aggregate row. *)
Definition key (a : RAgg) : string * string := (r_entity a, r_type_desc a).

Definition aggregate (rows : DataFrame) : list RAgg :=
  map (fun g => mkRAgg (fst (fst g)) (snd (fst g))
                       (sumZ (map paid_in (snd g))) (count (snd g)))
      (groupby (fun r => (entity r, type_desc r)) rows).

Definition frame (filtered_df : DataFrame) : list RAgg :=
  aggregate (tagged filtered_df).

Definition receive_money_box (filtered_df : DataFrame) (n : Z) : t :=
  let receiveFrame := frame filtered_df in
  {| topReceive_fig := sort_values r_sum true (nlargest r_sum n receiveFrame);
     totalreceived := astype_int (sumZ (map r_sum receiveFrame));
     totalreceivedTransactions := sumZ (map r_count receiveFrame);
     receiveFrame := receiveFrame |}.

End Receive.

Module Withdrawal.

Record t : Type := mk {
  topWithdrawal_fig : list Agg;
  totalwithdrawal : Z;
  totalcharges : Z;
  totalWithdrawals : Z;
  withdrawalFrame : list Agg
}.

Definition principal (filtered_df : DataFrame) : DataFrame :=
  filter (fun r => Str.contains "Customer Withdrawal" (type_class r))
         filtered_df.

Definition frame (filtered_df : DataFrame) : list Agg :=
  sort_values agg_sum false (agg_withdrawn (principal filtered_df)).

Section Box.

(** [round(x, 1)] of a float depends on the binary expansion of [x]; it
    is left open. *)
Variable round_1 : Z -> Z.

Definition cash_withdrawal_box (filtered_df : DataFrame) (nlargest : Z) : t :=
  let withdrawalFrame := frame filtered_df in
  {| topWithdrawal_fig :=
       sort_values agg_sum true (head nlargest withdrawalFrame);
     totalwithdrawal := astype_int (sumZ (map agg_sum withdrawalFrame));
     totalcharges :=
       round_1
         (sumZ (map withdrawn
                  (filter (fun r => Str.contains "Cash Withdrawal" (type_class r))
                          filtered_df)));
     totalWithdrawals := sumZ (map agg_count withdrawalFrame);
     withdrawalFrame := withdrawalFrame |}.

End Box.

End Withdrawal.

Module Airtime.

Record t : Type := mk {
  topAirtime_fig : list Agg;
  totalairtime : Z;
  totalairtimetransactions : Z;
  airtimeFrame : list Agg
}.

Definition principal (filtered_df : DataFrame) : DataFrame :=
  filter (fun r => Str.contains "Airtime" (type_class r)) filtered_df.

(** The per-entity aggregates, before any sort. *)
Definition aggregates (filtered_df : DataFrame) : list Agg :=
  agg_withdrawn (principal filtered_df).

Definition frame (filtered_df : DataFrame) : list Agg :=
  sort_values agg_sum true (aggregates filtered_df).

Definition airtime_box (filtered_df : DataFrame) (n : Z) : t :=
  let airtimeFrame := frame filtered_df in
  {| topAirtime_fig := sort_values agg_sum false (nlargest agg_sum n airtimeFrame);
     totalairtime := astype_int (sumZ (map agg_sum airtimeFrame));
     totalairtimetransactions := sumZ (map agg_count airtimeFrame);
     airtimeFrame := airtimeFrame |}.

(** Ordinary top-N-by-total, as the specification words it: take the [n]
    largest aggregates by total, then sort them descending. *)
Definition top_n_by_total (n : Z) (aggs : list Agg) : list Agg :=
  sort_values agg_sum false (nlargest agg_sum n aggs).

End Airtime.

(** ** Notions used in the statements *)

(** An amount of whole shillings, in hundredths. *)
Definition KSh (n : Z) : Z := 100 * n.

(** Position of the first row of entity [e] in the ledger. *)
Fixpoint first_seen (e : string) (rows : DataFrame) : nat :=
  match rows with
  | [] => 0
  | r :: rows' => if (entity r =? e)%string then 0 else S (first_seen e rows')
  end.

Definition sorted_desc (frame : list Agg) : Prop :=
  StronglySorted (fun a b => agg_sum b <= agg_sum a) frame.

(** Rows with equal totals stand in the order in which their entities
    first occur in the ledger. *)
Definition first_seen_ties (rows : DataFrame) (frame : list Agg) : Prop :=
  StronglySorted
    (fun a b => agg_sum a = agg_sum b ->
                (first_seen (agg_entity a) rows < first_seen (agg_entity b) rows)%nat)
    frame.

(** What a processor reports, against the columns of its frame and against
    the ledger amounts it aggregates: [total] is the sum of the frame's
    totals, as it is when [exact] and without its fraction of a shilling
    otherwise; [n] is the sum of the frame's counts; the frame's totals and
    counts add up to the ledger amounts and to their number. *)
Definition reports (exact : bool) (total n : Z) (sums counts amounts : list Z)
  : Prop :=
  (if exact then total = sumZ sums
   else total = Z.quot (sumZ sums) 100)
  /\ n = sumZ counts
  /\ sumZ sums = sumZ amounts
  /\ sumZ counts = count amounts.

(** [total] is the amount [cents] with its fraction of a shilling dropped. *)
Definition drops_fraction (total cents : Z) : Prop :=
  total = Z.quot cents 100
  /\ cents = KSh total + Z.rem cents 100
  /\ Z.abs (Z.rem cents 100) < 100
  /\ Z.abs (KSh total) <= Z.abs cents
  /\ (Z.rem cents 100 = 0 <-> KSh total = cents).

(** ** Sample rows *)

Module Sample.

Definition john : Row :=
  mkRow "Customer Transfer" "Customer Transfer to" "2547*****23 John Doe"
        (KSh 100) 0.

Definition safaricom : Row :=
  mkRow "Customer Transfer" "Customer Transfer to" "SAFARICOM DATA BUNDLES"
        (KSh 50) 0.

Definition transfer_charge : Row :=
  mkRow "Customer Transfer" "of Funds Charge" "" (KSh 7) 0.

Definition kplc_account : Row :=
  mkRow "Pay Bill" "Pay Bill Online to" "KPLC PREPAID Acc. 123456" (KSh 100) 0.

Definition kplc_plain : Row :=
  mkRow "Pay Bill" "Pay Bill Online to" "KPLC PREPAID" (KSh 20) 0.

End Sample.

(** ** Charts and tables *)

(** Rows [shown] picked from [frame] by column [col]: they are rows of the
    frame, and a row of the frame that is left out has no larger a value than
    any row shown. *)
Definition picks_largest {A : Type} (col : A -> Z) (frame shown : list A)
  : Prop :=
  incl shown frame
  /\ forall b, In b frame -> In b shown \/ forall a, In a shown -> col b <= col a.

Definition ascending {A : Type} (col : A -> Z) (l : list A) : Prop :=
  StronglySorted (fun x y => col x <= col y) l.

Definition descending {A : Type} (col : A -> Z) (l : list A) : Prop :=
  StronglySorted (fun x y => col y <= col x) l.

(** A chart of at most [n] rows of [frame]: the rows with the largest
    values of [col], drawn in ascending order of [key]. *)
Definition top_chart {A : Type} (col key : A -> Z) (n : Z) (frame chart : list A)
  : Prop :=
  picks_largest col frame chart
  /\ ascending key chart
  /\ List.length chart = Nat.min (Z.to_nat n) (List.length frame).

(** A frame with one row for each entity of [rows], and no other row: the
    entities of the frame are those of the rows, none twice, and every row of
    the frame counts at least one transaction. *)
Definition entity_table (rows : DataFrame) (frame : list Agg) : Prop :=
  NoDup (map agg_entity frame)
  /\ Forall (fun a => 1 <= agg_count a) frame
  /\ forall e, In e (map agg_entity frame) <-> In e (map entity rows).

(** The rows of [paybill_box] that carry a charge. *)
Definition paybill_charge_rows (filtered_df : DataFrame) : DataFrame :=
  filter (fun r => Str.contains "Pay Bill" (type_class r)
                   && Str.contains "Charge" (type_desc r))
         filtered_df.

(** A string of white space only. *)
Fixpoint all_space (s : string) : bool :=
  match s with
  | EmptyString => true
  | String c s' => Str.is_space c && all_space s'
  end.

(** ** The page that calls the processors

    The script of [m_top.py] below the filters, as the sections it puts on
    the page, in order, and the exception that ends it, if any. *)

Module Page.

Inductive widget : Type :=
| BuyGoods (m : Merchant.t) (frequent : list (string * Z))
| PayBill (p : Paybill.t) (frequent : list (string * Z))
| CashTransfers (t : Transfer.t) (frequent : list (string * Z))
| ReceivedMoney (r : Receive.t) (frequent : list (string * Z))
| CashWithdrawals (w : Withdrawal.t) (frequent : list (string * Z))
| AirtimePurchases (a : Airtime.t)
| Warning (text : string)
| Divider.

(** [frame[[name, "count"]].sort_values(by="count", ascending=False)
    .head(N_LARGEST)] *)
Definition most_frequent {A : Type} (name : A -> string) (cnt : A -> Z)
  (N_LARGEST : Z) (frame : list A) : list (string * Z) :=
  head N_LARGEST (sort_values snd false (map (fun a => (name a, cnt a)) frame)).

(** The merchant section; the pay-bill section sits in its [if] branch. *)
Definition merchant_sections (filtered_df : DataFrame) (N_LARGEST : Z)
  : list widget :=
  let m := Merchant.merchant_box filtered_df N_LARGEST in
  if 0 <? Merchant.merchantCount m then
    let p := Paybill.paybill_box filtered_df N_LARGEST in
    [BuyGoods m (most_frequent agg_entity agg_count N_LARGEST
                               (Merchant.merchantFrame m));
     Divider;
     PayBill p (most_frequent Paybill.p_entity2 Paybill.p_count N_LARGEST
                              (Paybill.paybillFrame p));
     Divider]
  else [Warning "No merchant payments found in the provided statement."].

Definition transfer_sections (t : Transfer.t) (N_LARGEST : Z) : list widget :=
  if 0 <? Transfer.totalTransactions t then
    [CashTransfers t (most_frequent agg_entity agg_count N_LARGEST
                                    (Transfer.transferFrame t));
     Divider]
  else [Warning "No customer transfers found in the provided statement."].

Definition receive_sections (filtered_df : DataFrame) (N_LARGEST : Z)
  : list widget :=
  let r := Receive.receive_money_box filtered_df N_LARGEST in
  if 0 <? Receive.totalreceivedTransactions r then
    [ReceivedMoney r (most_frequent Receive.r_entity Receive.r_count N_LARGEST
                                    (Receive.receiveFrame r))]
  else [Warning "No received money transactions found in the provided statement."].

Section Script.

Variable round_1 : Z -> Z.

Definition withdrawal_sections (filtered_df : DataFrame) (N_LARGEST : Z)
  : list widget :=
  let w := Withdrawal.cash_withdrawal_box round_1 filtered_df N_LARGEST in
  if 0 <? Withdrawal.totalWithdrawals w then
    [CashWithdrawals w (most_frequent agg_entity agg_count N_LARGEST
                                      (Withdrawal.withdrawalFrame w))]
  else [Warning "No cash withdrawal transactions found in the provided statement.";
        Divider].

(** The airtime section is shown on the total, not on the count. *)
Definition airtime_sections (filtered_df : DataFrame) (N_LARGEST : Z)
  : list widget :=
  let a := Airtime.airtime_box filtered_df N_LARGEST in
  if 0 <? Airtime.totalairtime a then [AirtimePurchases a; Divider]
  else [Warning "No airtime purchases found in the provided statement."].

(** The script: what is on the page when it ends, and the exception that
    ended it.  [customer_transfer_box] is called outside any [try]. *)
Definition page (filtered_df : DataFrame) (N_LARGEST : Z)
  : list widget * option exn :=
  let top := (Divider :: merchant_sections filtered_df N_LARGEST)%list in
  match Transfer.customer_transfer_box filtered_df N_LARGEST with
  | Raise e => (top, Some e)
  | Ok t =>
      ((top ++ transfer_sections t N_LARGEST
            ++ receive_sections filtered_df N_LARGEST
            ++ withdrawal_sections filtered_df N_LARGEST
            ++ airtime_sections filtered_df N_LARGEST)%list,
       None)
  end.

End Script.

Definition is_paybill (w : widget) : bool :=
  match w with PayBill _ _ => true | _ => false end.

Definition is_airtime (w : widget) : bool :=
  match w with AirtimePurchases _ => true | _ => false end.

End Page.

(** ** The date range filter of the side bar *)

Module DateFilter.

(** A row of the cleaned statement: its time stamp, in nanoseconds since
    the epoch as pandas holds it, and the columns the processors read. *)
Record Entry : Type := mkEntry {
  date_time : Z;
  row : Row
}.

Definition day : Z := 86400000000000.

(** [Timestamp.date()]: the day the time stamp falls on. *)
Definition date (t : Z) : Z := t / day.

(** [pd.to_datetime(d)] of a date: midnight at the start of that day. *)
Definition to_datetime (d : Z) : Z := d * day.

Definition earliest (e : Entry) (es : list Entry) : Z :=
  fold_right Z.min (date_time e) (map date_time es).

Definition latest (e : Entry) (es : list Entry) : Z :=
  fold_right Z.max (date_time e) (map date_time es).

(** The value the date input starts with: from the day of the first
    transaction of the statement to the day of the last. *)
Definition default_range (e : Entry) (es : list Entry) : list Z :=
  [date (earliest e es); date (latest e es)].

(** The ledger handed to the processors when the date toggle is on: the
    rows between the two midnights when two dates are picked, the whole
    statement (and a warning) otherwise. *)
Definition filtered_df (df_cleaned : list Entry) (date_range : list Z)
  : list Entry :=
  match date_range with
  | [start_date; end_date] =>
      filter (fun e => (to_datetime start_date <=? date_time e)
                       && (date_time e <=? to_datetime end_date))
             df_cleaned
  | _ => df_cleaned
  end.

End DateFilter.

(** ** The two filter toggles *)

Module Toggles.

(** The session state the toggles read and write: their values under the
    keys date_filter and month_filter, and the dictionary disable. *)
Record state : Type := mkState {
  date_filter : bool;
  month_filter : bool;
  disable_date : bool;
  disable_month : bool
}.

Definition init : state := mkState false false false false.

Definition update_toggles (s : state) : state :=
  mkState (date_filter s) (month_filter s)
          (* disable["date"] *) (month_filter s)
          (* disable["month"] *) (date_filter s).

Inductive click : Type := ClickDate | ClickMonth.

(** A click flips a toggle that is not disabled, and its [on_change]
    callback runs; a click on a disabled toggle does nothing. *)
Definition step (s : state) (c : click) : state :=
  match c with
  | ClickDate =>
      if disable_date s then s
      else update_toggles (mkState (negb (date_filter s)) (month_filter s)
                                   (disable_date s) (disable_month s))
  | ClickMonth =>
      if disable_month s then s
      else update_toggles (mkState (date_filter s) (negb (month_filter s))
                                   (disable_date s) (disable_month s))
  end.

Definition run (clicks : list click) : state := fold_left step clicks init.

End Toggles.

(** * Properties *)

(** ** Laws of the key orders *)

Lemma ascii_compare_refl (a : ascii) : Ascii.compare a a = Eq.
Proof. apply N.compare_refl. Qed.

Lemma ascii_compare_trans (a b c : ascii) :
  Ascii.compare a b = Lt -> Ascii.compare b c = Lt -> Ascii.compare a c = Lt.
Proof.
  unfold Ascii.compare. rewrite !N.compare_lt_iff. lia.
Qed.

Lemma string_compare_refl (s : string) : String.compare s s = Eq.
Proof.
  induction s as [|c s IH]; simpl; [reflexivity|].
  now rewrite ascii_compare_refl.
Qed.

Lemma string_compare_trans (a b c : string) :
  String.compare a b = Lt -> String.compare b c = Lt -> String.compare a c = Lt.
Proof.
  revert b c.
  induction a as [|x a IH]; intros [|y b] [|z c]; simpl; try discriminate; auto.
  destruct (Ascii.compare x y) eqn:Exy; try discriminate;
    destruct (Ascii.compare y z) eqn:Eyz; try discriminate; intros Hab Hbc.
  - apply Ascii.compare_eq_iff in Exy, Eyz. subst.
    rewrite ascii_compare_refl. eauto.
  - apply Ascii.compare_eq_iff in Exy. subst. now rewrite Eyz.
  - apply Ascii.compare_eq_iff in Eyz. subst. now rewrite Exy.
  - now rewrite (ascii_compare_trans _ _ _ Exy Eyz).
Qed.

#[export] Instance string_order_laws : KeyOrderLaws string.
Proof.
  split.
  - exact String.compare_eq_iff.
  - exact string_compare_refl.
  - exact String.compare_antisym.
  - exact string_compare_trans.
Qed.

#[export] Instance pair_order_laws {K1 K2 : Type}
  `{KeyOrderLaws K1} `{KeyOrderLaws K2} : KeyOrderLaws (K1 * K2).
Proof.
  split.
  - intros [a1 a2] [b1 b2]. simpl.
    destruct (kcmp a1 b1) eqn:E1; try discriminate.
    intros E2. apply kcmp_eq in E1, E2. now subst.
  - intros [a1 a2]. simpl. now rewrite !kcmp_refl.
  - intros [a1 a2] [b1 b2]. simpl.
    rewrite (kcmp_antisym a1 b1).
    destruct (kcmp b1 a1); simpl; auto using kcmp_antisym.
  - intros [a1 a2] [b1 b2] [c1 c2]. simpl.
    destruct (kcmp a1 b1) eqn:E1; try discriminate;
      destruct (kcmp b1 c1) eqn:E2; try discriminate; intros Hab Hbc.
    + apply kcmp_eq in E1, E2. subst. rewrite kcmp_refl. eauto using kcmp_trans.
    + apply kcmp_eq in E1. subst. now rewrite E2.
    + apply kcmp_eq in E2. subst. now rewrite E1.
    + now rewrite (kcmp_trans _ _ _ E1 E2).
Qed.

Section KeyFacts.

Context {K : Type} `{KeyOrderLaws K}.

Lemma keqb_eq (a b : K) : keqb a b = true <-> a = b.
Proof.
  unfold keqb. split.
  - destruct (kcmp a b) eqn:E; try discriminate. intros _. now apply kcmp_eq.
  - intros ->. now rewrite kcmp_refl.
Qed.

Lemma keqb_refl (a : K) : keqb a a = true.
Proof. now apply keqb_eq. Qed.

Lemma klt_irrefl (a : K) : ~ klt a a.
Proof. unfold klt. now rewrite kcmp_refl. Qed.

Lemma klt_trans (a b c : K) : klt a b -> klt b c -> klt a c.
Proof. apply kcmp_trans. Qed.

Lemma kcmp_gt_lt (a b : K) : kcmp a b = Gt -> klt b a.
Proof.
  unfold klt. intros E. rewrite kcmp_antisym, E. reflexivity.
Qed.

Lemma klt_keqb (a b : K) : klt a b -> keqb a b = false /\ keqb b a = false.
Proof.
  unfold klt, keqb. intros E. rewrite (kcmp_antisym b a), E. now simpl.
Qed.

End KeyFacts.

(** ** Facts on [groupby] *)

Lemma sumZ_nil : sumZ [] = 0.
Proof. reflexivity. Qed.

Lemma sumZ_cons (x : Z) (l : list Z) : sumZ (x :: l) = x + sumZ l.
Proof. reflexivity. Qed.

Section GroupByFacts.

Context {K : Type} `{KeyOrderLaws K} {A : Type}.
Variable key : A -> K.

Lemma group_insert_keys (r : A) (gs : list (K * list A)) (k : K) :
  In k (keys (group_insert key r gs)) <-> k = key r \/ In k (keys gs).
Proof.
  induction gs as [|[k' rs] gs IH]; simpl.
  - intuition.
  - destruct (kcmp (key r) k') eqn:E; simpl.
    + apply kcmp_eq in E. subst. intuition.
    + intuition.
    + rewrite IH. intuition.
Qed.

Lemma group_insert_sorted (r : A) (gs : list (K * list A)) :
  StronglySorted klt (keys gs) ->
  StronglySorted klt (keys (group_insert key r gs)).
Proof.
  induction gs as [|[k' rs] gs IH]; simpl; intros Hs.
  - repeat constructor.
  - apply StronglySorted_inv in Hs. destruct Hs as [Hs Hk'].
    destruct (kcmp (key r) k') eqn:E; simpl.
    + now constructor.
    + constructor; [now constructor|].
      constructor; [exact E|].
      eapply Forall_impl; [|exact Hk']. intros k. now apply klt_trans.
    + constructor; [now apply IH|].
      apply Forall_forall. intros k Hk.
      apply group_insert_keys in Hk. destruct Hk as [->|Hk].
      * now apply kcmp_gt_lt.
      * rewrite Forall_forall in Hk'. now apply Hk'.
Qed.

Lemma groupby_sorted (rows : list A) :
  StronglySorted klt (keys (groupby key rows)).
Proof.
  induction rows as [|r rows IH]; simpl.
  - constructor.
  - now apply group_insert_sorted.
Qed.

Lemma group_of_absent (k : K) (gs : list (K * list A)) :
  Forall (klt k) (keys gs) -> group_of k gs = [].
Proof.
  induction gs as [|[k' rs] gs IH]; simpl; intros Hk; [reflexivity|].
  inversion Hk as [|? ? Hlt Hk']; subst.
  destruct (klt_keqb _ _ Hlt) as [-> _]. now apply IH.
Qed.

Lemma group_of_insert (r : A) (gs : list (K * list A)) (k : K) :
  StronglySorted klt (keys gs) ->
  group_of k (group_insert key r gs)
  = if keqb (key r) k then r :: group_of k gs else group_of k gs.
Proof.
  induction gs as [|[k' rs] gs IH]; simpl; intros Hs.
  - destruct (keqb (key r) k) eqn:E.
    + apply keqb_eq in E. subst. now rewrite keqb_refl.
    + destruct (keqb k (key r)) eqn:E'; [|reflexivity].
      apply keqb_eq in E'. subst. now rewrite keqb_refl in E.
  - apply StronglySorted_inv in Hs. destruct Hs as [Hs Hk'].
    destruct (kcmp (key r) k') eqn:E; simpl.
    + apply kcmp_eq in E. subst k'.
      destruct (keqb k (key r)) eqn:E'.
      * apply keqb_eq in E'. subst. now rewrite keqb_refl.
      * destruct (keqb (key r) k) eqn:E''; [|reflexivity].
        apply keqb_eq in E''. subst. now rewrite keqb_refl in E'.
    + destruct (keqb k (key r)) eqn:E'.
      * apply keqb_eq in E'. subst k. rewrite keqb_refl.
        destruct (klt_keqb _ _ E) as [-> _].
        rewrite group_of_absent; [reflexivity|].
        eapply Forall_impl; [|exact Hk']. intros k. now apply klt_trans.
      * destruct (keqb (key r) k) eqn:E''; [|reflexivity].
        apply keqb_eq in E''. subst. now rewrite keqb_refl in E'.
    + destruct (keqb k k') eqn:E'.
      * apply keqb_eq in E'. subst k'.
        apply kcmp_gt_lt in E. destruct (klt_keqb _ _ E) as [_ ->].
        reflexivity.
      * now apply IH.
Qed.

(** The group of a key holds the rows of that key, in frame order. *)
Lemma group_of_groupby (rows : list A) (k : K) :
  group_of k (groupby key rows) = filter (fun r => keqb (key r) k) rows.
Proof.
  induction rows as [|r rows IH]; simpl; [reflexivity|].
  rewrite group_of_insert by apply groupby_sorted.
  rewrite IH. reflexivity.
Qed.

Lemma group_of_In (gs : list (K * list A)) (k : K) (rs : list A) :
  StronglySorted klt (keys gs) -> In (k, rs) gs -> group_of k gs = rs.
Proof.
  induction gs as [|[k' rs'] gs IH]; simpl; intros Hs Hin; [contradiction|].
  apply StronglySorted_inv in Hs. destruct Hs as [Hs Hk'].
  destruct Hin as [E|Hin].
  - inversion E. subst. now rewrite keqb_refl.
  - assert (Hlt : klt k' k).
    { rewrite Forall_forall in Hk'. apply Hk'.
      change k with (fst (k, rs)). now apply in_map. }
    destruct (klt_keqb _ _ Hlt) as [_ ->]. now apply IH.
Qed.

Lemma groupby_In (rows : list A) (k : K) (rs : list A) :
  In (k, rs) (groupby key rows) ->
  rs = filter (fun r => keqb (key r) k) rows.
Proof.
  intros Hin. rewrite <- group_of_groupby.
  symmetry. apply group_of_In; [apply groupby_sorted|exact Hin].
Qed.

Lemma groupby_keys (rows : list A) (k : K) :
  In k (keys (groupby key rows)) <-> In k (map key rows).
Proof.
  induction rows as [|r rows IH]; simpl; [tauto|].
  rewrite group_insert_keys, IH. intuition.
Qed.

(** No group is empty. *)
Lemma groupby_nonempty (rows : list A) :
  Forall (fun g => snd g <> []) (groupby key rows).
Proof.
  induction rows as [|r rows IH]; simpl; [constructor|].
  induction IH as [|[k rs] gs Hg Hgs IHgs]; simpl.
  - repeat constructor. discriminate.
  - destruct (kcmp (key r) k).
    + constructor; [discriminate|exact Hgs].
    + constructor; [discriminate|]. now constructor.
    + now constructor.
Qed.

(** Sums and counts over the groups are sums and counts over the rows. *)
Lemma group_insert_sum (f : A -> Z) (r : A) (gs : list (K * list A)) :
  sumZ (map (fun g => sumZ (map f (snd g))) (group_insert key r gs))
  = f r + sumZ (map (fun g => sumZ (map f (snd g))) gs).
Proof.
  induction gs as [|[k' rs] gs IH]; simpl.
  - rewrite !sumZ_cons, sumZ_nil. lia.
  - destruct (kcmp (key r) k'); simpl; rewrite !sumZ_cons, ?sumZ_nil;
      try rewrite IH; lia.
Qed.

Lemma groupby_sum (f : A -> Z) (rows : list A) :
  sumZ (map (fun g => sumZ (map f (snd g))) (groupby key rows))
  = sumZ (map f rows).
Proof.
  induction rows as [|r rows IH]; simpl; [reflexivity|].
  rewrite group_insert_sum, IH. reflexivity.
Qed.

Lemma count_sum (rs : list A) : count rs = sumZ (map (fun _ => 1) rs).
Proof.
  unfold count. induction rs as [|r rs IH]; [reflexivity|].
  change (sumZ (map (fun _ => 1) (r :: rs)))
    with (1 + sumZ (map (fun _ : A => 1) rs)).
  cbn [List.length]. rewrite Nat2Z.inj_succ, IH. lia.
Qed.

Lemma groupby_count (rows : list A) :
  sumZ (map (fun g => count (snd g)) (groupby key rows)) = count rows.
Proof.
  rewrite (count_sum rows), <- (groupby_sum (fun _ => 1)).
  f_equal. apply map_ext. intros g. apply count_sum.
Qed.

End GroupByFacts.

(** ** Facts on [sort_values] *)

Section SortFacts.

Context {A : Type}.
Variable col : A -> Z.

Lemma col_le_total (asc : bool) (x y : A) :
  col_le col asc x y = true \/ col_le col asc y x = true.
Proof. unfold col_le. destruct asc; lia. Qed.

Lemma col_le_false (asc : bool) (x y : A) :
  col_le col asc x y = false -> col_lt col asc y x.
Proof. unfold col_le, col_lt. destruct asc; lia. Qed.

Lemma col_le_true (asc : bool) (x y : A) :
  col_le col asc x y = true -> col_lt col asc x y \/ col x = col y.
Proof. unfold col_le, col_lt. destruct asc; lia. Qed.

Lemma col_le_trans (asc : bool) (x y z : A) :
  col_le col asc x y = true -> col_le col asc y z = true ->
  col_le col asc x z = true.
Proof. unfold col_le. destruct asc; lia. Qed.

Lemma insert_row_perm (asc : bool) (x : A) (l : list A) :
  Permutation (insert_row col asc x l) (x :: l).
Proof.
  induction l as [|y l IH]; simpl; [reflexivity|].
  destruct (col_le col asc x y); [reflexivity|].
  rewrite IH. apply perm_swap.
Qed.

Lemma sort_values_perm (asc : bool) (l : list A) :
  Permutation (sort_values col asc l) l.
Proof.
  induction l as [|x l IH]; simpl; [reflexivity|].
  rewrite insert_row_perm. now constructor.
Qed.

Lemma sort_values_In (asc : bool) (l : list A) (x : A) :
  In x (sort_values col asc l) <-> In x l.
Proof.
  split; apply Permutation_in;
    [|symmetry]; apply sort_values_perm.
Qed.

Lemma insert_row_sum (f : A -> Z) (asc : bool) (x : A) (l : list A) :
  sumZ (map f (insert_row col asc x l)) = f x + sumZ (map f l).
Proof.
  induction l as [|y l IH]; simpl; [reflexivity|].
  destruct (col_le col asc x y); cbn [map]; rewrite !sumZ_cons;
    [reflexivity|]. rewrite IH. lia.
Qed.

(** Sorting moves rows, it does not change a column total. *)
Lemma sort_values_sum (f : A -> Z) (asc : bool) (l : list A) :
  sumZ (map f (sort_values col asc l)) = sumZ (map f l).
Proof.
  induction l as [|x l IH]; simpl; [reflexivity|].
  rewrite insert_row_sum. cbn [map]. rewrite sumZ_cons, <- IH. reflexivity.
Qed.

Lemma sort_values_length (asc : bool) (l : list A) :
  List.length (sort_values col asc l) = List.length l.
Proof. apply Permutation_length, sort_values_perm. Qed.

(** *** Order and stability *)

Lemma insert_row_lex (asc : bool) (R : A -> A -> Prop) (x : A) (l : list A) :
  StronglySorted (lex col asc R) l -> Forall (R x) l ->
  StronglySorted (lex col asc R) (insert_row col asc x l).
Proof.
  induction l as [|y l IH]; simpl; intros Hs Hx.
  - repeat constructor.
  - apply StronglySorted_inv in Hs. destruct Hs as [Hs Hy].
    inversion Hx as [|? ? Rxy Hx']; subst.
    destruct (col_le col asc x y) eqn:E.
    + constructor; [now constructor|].
      constructor.
      * destruct (col_le_true _ _ _ E); [now left|now right].
      * rewrite Forall_forall in *. intros z Hz.
        specialize (Hy z Hz). specialize (Hx' z Hz).
        unfold lex, col_lt, col_le in *. destruct asc; lia || (right; lia) ||
          (destruct Hy as [Hy|[Hy _]];
           destruct (Z.eq_dec (col x) (col z)); [right|left|right|left];
           try split; try assumption; lia).
    + constructor; [now apply IH|].
      apply Forall_forall. intros z Hz.
      apply (Permutation_in _ (insert_row_perm asc x l)) in Hz.
      destruct Hz as [<-|Hz].
      * left. now apply col_le_false.
      * rewrite Forall_forall in Hy. now apply Hy.
Qed.

(** Stability: rows that tie on the column keep the order they had. *)
Lemma sort_values_stable (asc : bool) (R : A -> A -> Prop) (l : list A) :
  StronglySorted R l -> StronglySorted (lex col asc R) (sort_values col asc l).
Proof.
  induction l as [|x l IH]; simpl; intros Hs.
  - constructor.
  - apply StronglySorted_inv in Hs. destruct Hs as [Hs Hx].
    apply insert_row_lex; [now apply IH|].
    rewrite Forall_forall in *. intros z Hz. apply Hx.
    now apply sort_values_In in Hz.
Qed.

Lemma sort_values_sorted (asc : bool) (l : list A) :
  StronglySorted (fun x y => col_le col asc x y = true) (sort_values col asc l).
Proof.
  assert (Hl : StronglySorted (lex col asc (fun _ _ => True)) (sort_values col asc l)).
  { apply sort_values_stable.
    induction l; constructor; auto. apply Forall_forall. auto. }
  revert Hl. generalize (sort_values col asc l). intros m Hm.
  induction Hm as [|x m Hm IH Hx]; constructor; auto.
  eapply Forall_impl; [|exact Hx].
  intros y. unfold lex, col_lt, col_le. destruct asc; lia.
Qed.

Lemma sort_values_sorted_id (asc : bool) (l : list A) :
  StronglySorted (fun x y => col_le col asc x y = true) l ->
  sort_values col asc l = l.
Proof.
  induction 1 as [|x l Hs IH Hx]; simpl; [reflexivity|].
  rewrite IH. destruct l as [|y l]; [reflexivity|].
  simpl. inversion Hx as [|? ? E _]; subst. now rewrite E.
Qed.

Lemma firstn_sorted (R : A -> A -> Prop) (n : nat) (l : list A) :
  StronglySorted R l -> StronglySorted R (firstn n l).
Proof.
  intros Hs. revert n.
  induction Hs as [|x l Hs IH Hx]; intros [|n]; simpl; try constructor; auto.
  rewrite Forall_forall in *. intros y Hy. apply Hx.
  rewrite <- (firstn_skipn n l). apply in_or_app. now left.
Qed.

(** *** Sorting one way, then the other *)

Lemma insert_row_comm (asc : bool) (x y : A) (l : list A) :
  col x <> col y ->
  insert_row col asc x (insert_row col asc y l)
  = insert_row col asc y (insert_row col asc x l).
Proof.
  intros Hxy.
  induction l as [|z l IH]; simpl.
  - unfold col_le. destruct asc;
      destruct (Z.leb_spec (col x) (col y)), (Z.leb_spec (col y) (col x));
      try reflexivity; lia.
  - destruct (col_le col asc y z) eqn:Eyz, (col_le col asc x z) eqn:Exz; simpl;
      rewrite ?Eyz, ?Exz;
      destruct (col_le col asc x y) eqn:Exy, (col_le col asc y x) eqn:Eyx;
      try reflexivity; try (rewrite IH; reflexivity);
      exfalso; unfold col_le in *; destruct asc; lia.
Qed.

Lemma sort_values_insert_opposite (asc : bool) (x : A) (m : list A) :
  sort_values col (negb asc) (insert_row col asc x m)
  = insert_row col (negb asc) x (sort_values col (negb asc) m).
Proof.
  induction m as [|y m IH]; simpl; [reflexivity|].
  destruct (col_le col asc x y) eqn:E; simpl; [reflexivity|].
  rewrite IH. apply insert_row_comm.
  unfold col_le in E. destruct asc; lia.
Qed.

(** A stable sort forgets a stable sort in the opposite direction. *)
Lemma sort_values_opposite (asc : bool) (l : list A) :
  sort_values col (negb asc) (sort_values col asc l)
  = sort_values col (negb asc) l.
Proof.
  induction l as [|x l IH]; simpl; [reflexivity|].
  rewrite sort_values_insert_opposite, IH. reflexivity.
Qed.

End SortFacts.

(** ** Facts on the aggregate frames *)

Lemma StronglySorted_map {A B : Type} (R : B -> B -> Prop) (f : A -> B)
  (l : list A) :
  StronglySorted R (map f l) -> StronglySorted (fun x y => R (f x) (f y)) l.
Proof.
  induction l as [|x l IH]; simpl; intros Hs; constructor;
    apply StronglySorted_inv in Hs; destruct Hs as [Hs Hx]; auto.
  rewrite Forall_map in Hx. exact Hx.
Qed.

Lemma StronglySorted_map_inv {A B : Type} (R : B -> B -> Prop) (f : A -> B)
  (l : list A) :
  StronglySorted (fun x y => R (f x) (f y)) l -> StronglySorted R (map f l).
Proof.
  induction 1 as [|x l Hs IH Hx]; simpl; constructor; auto.
  now rewrite Forall_map.
Qed.

Lemma StronglySorted_NoDup {A : Type} (R : A -> A -> Prop) (l : list A) :
  (forall x, ~ R x x) -> StronglySorted R l -> NoDup l.
Proof.
  intros Hirr. induction 1 as [|x l Hs IH Hx]; constructor; auto.
  intros Hin. rewrite Forall_forall in Hx. exact (Hirr x (Hx x Hin)).
Qed.

Section AggFacts.

Variable rows : DataFrame.

Lemma agg_withdrawn_sum :
  sumZ (map agg_sum (agg_withdrawn rows)) = sumZ (map withdrawn rows).
Proof.
  unfold agg_withdrawn. rewrite map_map. cbn [agg_sum].
  apply groupby_sum.
Qed.

Lemma agg_withdrawn_count :
  sumZ (map agg_count (agg_withdrawn rows)) = count rows.
Proof.
  unfold agg_withdrawn. rewrite map_map. cbn [agg_count].
  apply groupby_count.
Qed.

Lemma agg_withdrawn_entities (e : string) :
  In e (map agg_entity (agg_withdrawn rows)) <-> In e (map entity rows).
Proof.
  unfold agg_withdrawn. rewrite map_map. cbn [agg_entity].
  apply (groupby_keys entity).
Qed.

Lemma agg_withdrawn_sorted : StronglySorted by_entity (agg_withdrawn rows).
Proof.
  unfold by_entity. apply StronglySorted_map.
  unfold agg_withdrawn. rewrite map_map. cbn [agg_entity].
  apply (groupby_sorted entity).
Qed.

(** A row of the aggregate frame counts and sums the rows of its entity. *)
Lemma agg_withdrawn_In (a : Agg) :
  In a (agg_withdrawn rows) ->
  let group := filter (fun r => (entity r =? agg_entity a)%string) rows in
  agg_count a = count group /\ agg_sum a = sumZ (map withdrawn group).
Proof.
  unfold agg_withdrawn. rewrite in_map_iff.
  intros [[k rs] [<- Hin]]. cbn [fst snd agg_entity agg_count agg_sum].
  apply groupby_In in Hin.
  assert (E : filter (fun r => (entity r =? k)%string) rows = rs).
  { rewrite Hin. apply filter_ext. intros r.
    destruct (String.eqb_spec (entity r) k) as [->|Hne].
    - now rewrite keqb_refl.
    - destruct (keqb (entity r) k) eqn:E'; [|reflexivity].
      now apply keqb_eq in E'. }
  rewrite E. now split.
Qed.

End AggFacts.

Lemma sort_desc_ranked (rows : DataFrame) :
  ranked (sort_values agg_sum false (agg_withdrawn rows)).
Proof. apply sort_values_stable, agg_withdrawn_sorted. Qed.

Example title_upper : Str.title "SAFARICOM DATA BUNDLES" = "Safaricom Data Bundles".
Proof. reflexivity. Qed.

Example title_apostrophe : Str.title "they're 2nd" = "They'Re 2Nd".
Proof. reflexivity. Qed.

Example partition_masked : Str.partition_2 "2547*****23 John Doe" = "John Doe".
Proof. reflexivity. Qed.

Example extract_with_account :
  Str.extract "KPLC PREPAID Acc. 123456" = (Some "KPLC PREPAID", Some "123456").
Proof. reflexivity. Qed.

Example extract_without_account :
  Str.extract "KPLC PREPAID" = (Some "KPLC PREPAID", None).
Proof. reflexivity. Qed.

(** ** When [customer_transfer_box] returns *)

Lemma transferChargesFrame_nil (df : DataFrame) :
  Transfer.transferChargesFrame df = [] <-> Transfer.charge_rows df = [].
Proof.
  unfold Transfer.transferChargesFrame. split.
  - intros E. apply (f_equal (@List.length _)) in E.
    rewrite sort_values_length, length_map in E.
    destruct (Transfer.charge_rows df) as [|c cs] eqn:C; [reflexivity|].
    exfalso.
    destruct (groupby type_class (c :: cs)) eqn:G; [|discriminate].
    pose proof (groupby_keys type_class (c :: cs) (type_class c)) as K.
    rewrite G in K. apply K. now left.
  - intros ->. reflexivity.
Qed.

(** The processor raises exactly when the ledger has no charge row of its
    category; otherwise it returns the record built from its frame. *)
Lemma customer_transfer_box_cases (df : DataFrame) (n : Z) :
  (Transfer.charge_rows df = []
   /\ Transfer.customer_transfer_box df n = Raise IndexError)
  \/ (Transfer.charge_rows df <> []
      /\ exists res, Transfer.customer_transfer_box df n = Ok res
           /\ Transfer.transferFrame res = Transfer.frame df
           /\ Transfer.totalspend res
              = astype_int (sumZ (map agg_sum (Transfer.frame df)))
           /\ Transfer.totalTransactions res
              = sumZ (map agg_count (Transfer.frame df))).
Proof.
  unfold Transfer.customer_transfer_box.
  destruct (Transfer.transferChargesFrame df) as [|c cs] eqn:E.
  - left. apply transferChargesFrame_nil in E. now split.
  - right. split.
    + intros C. apply transferChargesFrame_nil in C. congruence.
    + eexists. split; [reflexivity|]. now repeat split.
Qed.

(** Split a goal on the outcome of [customer_transfer_box df n]: the raising
    case is closed by the absence of charge rows, the returning case goes on
    with the fields of the record rewritten to the frame. *)
Ltac transfer_cases df n :=
  let C := fresh "C" in
  let res := fresh "res" in
  let E := fresh "E" in
  let F := fresh "F" in
  let T := fresh "T" in
  let N := fresh "N" in
  destruct (customer_transfer_box_cases df n)
    as [[C E]|[_ (res & E & F & T & N)]];
  rewrite E; cbv beta iota;
  [exact C|rewrite ?F, ?T, ?N; clear E F T N].

(** ** Ranking *)

Lemma paybill_aggregate_sorted (rows : list Paybill.XRow) :
  StronglySorted Paybill.by_entity2 (Paybill.aggregate rows).
Proof.
  unfold Paybill.by_entity2. apply StronglySorted_map.
  unfold Paybill.aggregate. rewrite map_map. cbn [Paybill.p_entity2].
  apply (groupby_sorted fst).
Qed.

Lemma ranked_sorted_desc (frame : list Agg) : ranked frame -> sorted_desc frame.
Proof.
  unfold ranked, sorted_desc.
  induction 1 as [|a l Hs IH Ha]; constructor; auto.
  eapply Forall_impl; [|exact Ha].
  intros b. unfold lex, col_lt. lia.
Qed.


(** Whatever the sort does with rows of equal total, the frame cannot
    follow the order of first occurrence: two ledgers with the same rows in
    opposite order have the same groups, hence the same frame. *)
Lemma first_seen_order_unreachable (sort : list Agg -> list Agg) :
  (forall l, Permutation l (sort l)) ->
  let zed := mkRow "Merchant Payment" "" "Zed" (KSh 100) 0 in
  let abe := mkRow "Merchant Payment" "" "Abe" (KSh 100) 0 in
  ~ (first_seen_ties [zed; abe] (sort (agg_withdrawn (Merchant.principal [zed; abe])))
     /\ first_seen_ties [abe; zed]
                        (sort (agg_withdrawn (Merchant.principal [abe; zed])))).
Proof.
  intros Hperm zed abe.
  change (agg_withdrawn (Merchant.principal [zed; abe]))
    with [mkAgg "Abe" 1 (KSh 100); mkAgg "Zed" 1 (KSh 100)].
  change (agg_withdrawn (Merchant.principal [abe; zed]))
    with [mkAgg "Abe" 1 (KSh 100); mkAgg "Zed" 1 (KSh 100)].
  destruct (Permutation_length_2_inv
              (Hperm [mkAgg "Abe" 1 (KSh 100); mkAgg "Zed" 1 (KSh 100)]))
    as [-> | ->];
    intros [H1 H2].
  - apply StronglySorted_inv in H1. destruct H1 as [_ H1].
    inversion H1 as [|? ? H _]; subst. specialize (H eq_refl).
    vm_compute in H. lia.
  - apply StronglySorted_inv in H2. destruct H2 as [_ H2].
    inversion H2 as [|? ? H _]; subst. specialize (H eq_refl).
    vm_compute in H. lia.
Qed.


(** ** Airtime: the ascending sort has no net effect *)


(** The top-N-by-total is the first [n] rows of the aggregates in
    descending stable order. *)
Lemma top_n_by_total_firstn (n : Z) (aggs : list Agg) :
  0 < n ->
  Airtime.top_n_by_total n aggs
  = firstn (Z.to_nat n) (sort_values agg_sum false aggs).
Proof.
  intros Hn. unfold Airtime.top_n_by_total, nlargest.
  destruct (Z.leb_spec n 0); [lia|].
  apply sort_values_sorted_id, firstn_sorted, sort_values_sorted.
Qed.

(** ** Totals against the ledger *)

Lemma keqb_string (a b : string) : keqb a b = (a =? b)%string.
Proof.
  destruct (String.eqb_spec a b) as [->|Hne].
  - apply keqb_refl.
  - destruct (keqb a b) eqn:E; [|reflexivity]. now apply keqb_eq in E.
Qed.

Lemma count_map {A B : Type} (f : A -> B) (l : list A) : count (map f l) = count l.
Proof. unfold count. now rewrite length_map. Qed.

Lemma search_some (s : string) : Str.search s <> None.
Proof.
  induction s as [|c s IH]; cbn [Str.search].
  - cbn. discriminate.
  - destruct (Str.match_here (String c s)); [discriminate|exact IH].
Qed.

(** The pattern matches every cell: no pay-bill row lacks a business name. *)
Lemma business_of_some (r : Row) : Paybill.business_of r <> None.
Proof.
  unfold Paybill.business_of, Str.extract.
  destruct (Str.search (entity r)) as [[g1 g2]|] eqn:E; [discriminate|].
  now apply search_some in E.
Qed.

Lemma keyed_extract (rows : DataFrame) :
  map snd (Paybill.keyed (map Paybill.extract_row rows))
  = map Paybill.extract_row rows.
Proof.
  induction rows as [|r rows IH]; [reflexivity|].
  cbn [map Paybill.keyed].
  destruct (Paybill.entity2 (Paybill.extract_row r)) eqn:E.
  - cbn [map snd]. now rewrite IH.
  - exfalso. now apply (business_of_some r).
Qed.

Lemma keyed_group (xs : list Paybill.XRow) (k : string) :
  map snd (filter (fun kx => keqb (fst kx) k) (Paybill.keyed xs))
  = filter (fun x => match Paybill.entity2 x with
                     | Some k' => (k' =? k)%string
                     | None => false
                     end) xs.
Proof.
  induction xs as [|x xs IH]; [reflexivity|].
  cbn [Paybill.keyed filter].
  destruct (Paybill.entity2 x) as [k'|]; [|exact IH].
  cbn [filter fst]. rewrite keqb_string.
  destruct (k' =? k)%string; cbn [map snd]; now rewrite IH.
Qed.

Lemma filter_map_comm {A B : Type} (f : A -> B) (p : B -> bool) (l : list A) :
  filter p (map f l) = map f (filter (fun x => p (f x)) l).
Proof.
  induction l as [|x l IH]; [reflexivity|].
  cbn [map filter]. destruct (p (f x)); cbn [map]; now rewrite IH.
Qed.

(** A row of the pay-bill frame counts, sums and joins over the principal
    rows of its business name, taken in ledger order. *)
Lemma paybill_aggregate_In (rows : DataFrame) (a : Paybill.PAgg) :
  In a (Paybill.aggregate (map Paybill.extract_row rows)) ->
  let group := Paybill.group (Paybill.p_entity2 a) rows in
  group <> []
  /\ Paybill.p_count a = count group
  /\ Paybill.p_sum a = sumZ (map withdrawn group)
  /\ Paybill.p_accounts a = Paybill.agg_concat (map Paybill.account_of group).
Proof.
  unfold Paybill.aggregate. rewrite in_map_iff.
  intros [[k kxs] [<- Hin]].
  cbn [fst snd Paybill.p_entity2 Paybill.p_count Paybill.p_sum Paybill.p_accounts].
  assert (Hne : kxs <> []).
  { pose proof (groupby_nonempty fst
      (Paybill.keyed (map Paybill.extract_row rows))) as Hs.
    rewrite Forall_forall in Hs. exact (Hs _ Hin). }
  apply groupby_In in Hin.
  assert (E : map snd kxs
              = map Paybill.extract_row (filter (Paybill.has_business k) rows)).
  { rewrite Hin, keyed_group, filter_map_comm. reflexivity. }
  unfold Paybill.group. repeat split.
  - intros Hg. rewrite Hg in E. destruct kxs; [now apply Hne|discriminate].
  - rewrite <- (count_map snd), E. apply count_map.
  - rewrite <- (map_map snd (fun x => withdrawn (Paybill.row x))), E, map_map.
    reflexivity.
  - rewrite <- (map_map snd Paybill.accounts), E, map_map. reflexivity.
Qed.

Lemma paybill_frame_sum (df : DataFrame) :
  sumZ (map Paybill.p_sum (Paybill.frame df))
  = sumZ (map withdrawn (Paybill.principal df)).
Proof.
  unfold Paybill.frame, Paybill.aggregate.
  rewrite sort_values_sum, map_map. cbn [Paybill.p_sum].
  rewrite (groupby_sum fst (fun kx => withdrawn (Paybill.row (snd kx)))).
  rewrite <- (map_map snd (fun x => withdrawn (Paybill.row x))).
  rewrite keyed_extract, map_map. reflexivity.
Qed.

Lemma paybill_frame_count (df : DataFrame) :
  sumZ (map Paybill.p_count (Paybill.frame df))
  = count (Paybill.principal df).
Proof.
  unfold Paybill.frame, Paybill.aggregate.
  rewrite sort_values_sum, map_map. cbn [Paybill.p_count].
  rewrite (groupby_count fst).
  rewrite <- (count_map snd), keyed_extract. apply count_map.
Qed.

Lemma clean_entities_withdrawn (frame : DataFrame) :
  map withdrawn (clean_entities frame) = map withdrawn frame.
Proof.
  unfold clean_entities, partition_title_masked, title_unmasked.
  destruct (existsb mask frame); rewrite map_map; apply map_ext;
    intros r; destruct (mask r); reflexivity.
Qed.

Lemma clean_entities_paid_in (frame : DataFrame) :
  map paid_in (clean_entities frame) = map paid_in frame.
Proof.
  unfold clean_entities, partition_title_masked, title_unmasked.
  destruct (existsb mask frame); rewrite map_map; apply map_ext;
    intros r; destruct (mask r); reflexivity.
Qed.

Lemma clean_entities_type_desc (frame : DataFrame) :
  map type_desc (clean_entities frame) = map type_desc frame.
Proof.
  unfold clean_entities, partition_title_masked, title_unmasked.
  destruct (existsb mask frame); rewrite map_map; apply map_ext;
    intros r; destruct (mask r); reflexivity.
Qed.

Lemma map_count {A B : Type} (f : A -> B) (l : list A) (l' : list A) :
  map f l = map f l' -> count l = count l'.
Proof.
  intros E. apply (f_equal (@List.length _)) in E.
  rewrite !length_map in E. unfold count. now rewrite E.
Qed.

Lemma tagged_paid_in (df : DataFrame) :
  map paid_in (Receive.tagged df) = map paid_in (Receive.principal df).
Proof.
  unfold Receive.tagged, Receive.concat, Receive.principal.
  rewrite map_map. cbn [paid_in set_type_desc].
  rewrite !map_app, clean_entities_paid_in. reflexivity.
Qed.

Lemma receive_frame_sum (df : DataFrame) :
  sumZ (map Receive.r_sum (Receive.frame df))
  = sumZ (map paid_in (Receive.principal df)).
Proof.
  unfold Receive.frame, Receive.aggregate.
  rewrite map_map. cbn [Receive.r_sum].
  rewrite (groupby_sum (fun r => (entity r, type_desc r)) paid_in).
  now rewrite tagged_paid_in.
Qed.

Lemma receive_frame_count (df : DataFrame) :
  sumZ (map Receive.r_count (Receive.frame df))
  = count (Receive.principal df).
Proof.
  unfold Receive.frame, Receive.aggregate.
  rewrite map_map. cbn [Receive.r_count].
  rewrite (groupby_count (fun r => (entity r, type_desc r))).
  apply (map_count paid_in), tagged_paid_in.
Qed.

Lemma sorted_agg_reports (exact : bool) (asc : bool) (rows : DataFrame) :
  let frame := sort_values agg_sum asc (agg_withdrawn rows) in
  reports exact
          (if exact then sumZ (map agg_sum frame)
           else astype_int (sumZ (map agg_sum frame)))
          (sumZ (map agg_count frame))
          (map agg_sum frame) (map agg_count frame) (map withdrawn rows).
Proof.
  cbv zeta. unfold reports. repeat split.
  - destruct exact; reflexivity.
  - now rewrite sort_values_sum, agg_withdrawn_sum.
  - now rewrite sort_values_sum, agg_withdrawn_count, count_map.
Qed.

(** ** Conservation *)



(** ** Truncation of the reported totals *)

Lemma astype_int_drops (cents : Z) : drops_fraction (astype_int cents) cents.
Proof.
  unfold drops_fraction, astype_int, KSh.
  pose proof (Z.quot_rem' cents 100) as E.
  pose proof (Z.rem_bound_abs cents 100 ltac:(lia)) as B.
  assert (S : 0 <= cents /\ 0 <= Z.rem cents 100
              \/ cents <= 0 /\ Z.rem cents 100 <= 0).
  { destruct (Z.le_ge_cases 0 cents) as [Hc|Hc].
    - left. split; [exact Hc|]. apply Z.rem_nonneg; lia.
    - right. split; [exact Hc|]. apply Z.rem_nonpos; lia. }
  repeat split; try lia.
Qed.

Lemma keqb_pair (a b : string * string) :
  keqb a b = ((fst a =? fst b)%string && (snd a =? snd b)%string)%bool.
Proof.
  destruct a as [a1 a2], b as [b1 b2]. cbn [fst snd].
  destruct (String.eqb_spec a1 b1) as [->|H1];
    [destruct (String.eqb_spec a2 b2) as [->|H2]|].
  - apply keqb_refl.
  - destruct (keqb (b1, a2) (b1, b2)) eqn:E; [|reflexivity].
    apply keqb_eq in E. congruence.
  - destruct (keqb (a1, a2) (b1, b2)) eqn:E; [|reflexivity].
    apply keqb_eq in E. congruence.
Qed.

(** A row of the received-funds frame counts and sums the tagged rows of
    its entity name and tag. *)
Lemma receive_aggregate_In (rows : DataFrame) (a : Receive.RAgg) :
  In a (Receive.aggregate rows) ->
  let group :=
    filter (fun r => (entity r =? Receive.r_entity a)%string
                     && (type_desc r =? Receive.r_type_desc a)%string) rows in
  group <> []
  /\ Receive.r_count a = count group
  /\ Receive.r_sum a = sumZ (map paid_in group).
Proof.
  unfold Receive.aggregate. rewrite in_map_iff.
  intros [[[e d] rs] [<- Hin]].
  cbn [fst snd Receive.r_entity Receive.r_type_desc Receive.r_count Receive.r_sum].
  pose proof (groupby_nonempty (fun r => (entity r, type_desc r)) rows) as Hne.
  rewrite Forall_forall in Hne. specialize (Hne _ Hin). cbn [snd] in Hne.
  apply groupby_In in Hin.
  assert (E : filter (fun r => (entity r =? e)%string
                               && (type_desc r =? d)%string) rows = rs).
  { rewrite Hin. apply filter_ext. intros r. now rewrite keqb_pair. }
  rewrite E. now repeat split.
Qed.


(** A ledger whose pay-bill amounts add up to 150.75: the total reported
    is 150, the frame keeps 100.50 and 50.25. *)
Example truncation_on_paybill :
  let df := [mkRow "Pay Bill" "Pay Bill Online to" "KPLC PREPAID Acc. 123456"
                   10050 0;
             mkRow "Pay Bill" "Pay Bill to" "ZUKU Acc. 77" 5025 0] in
  let p := Paybill.paybill_box df 9 in
  Paybill.totalsent p = 150
  /\ map Paybill.p_sum (Paybill.paybillFrame p) = [10050; 5025].
Proof. split; reflexivity. Qed.

(** ** Ledgers without charge rows *)

(** C2 fails on the code: [customer_transfer_box] raises on the empty
    ledger, and on a ledger with transfers but no transfer charge row. *)
Theorem transfer_raises_without_charge_row (n : Z) :
  Transfer.customer_transfer_box [] n = Raise IndexError
  /\ Transfer.customer_transfer_box
       [mkRow "Customer Transfer" "Customer Transfer to" "0722***111 Mary W"
              (KSh 500) 0] n
     = Raise IndexError.
Proof. split; reflexivity. Qed.

Lemma customer_transfer_box_raises (df : DataFrame) (n : Z) :
  Transfer.charge_rows df = [] ->
  Transfer.customer_transfer_box df n = Raise IndexError.
Proof.
  intros C. destruct (customer_transfer_box_cases df n) as [[_ E]|[C' _]];
    [exact E|contradiction].
Qed.

(** The other processors on the empty ledger: no rows, zero totals. *)
Lemma siblings_on_empty_ledger (round_1 : Z -> Z) (n : Z) :
  Merchant.merchant_box [] n = Merchant.mk [] 0 0 0 []
  /\ Paybill.paybill_box [] n = Paybill.mk [] 0 0 [] 0
  /\ Receive.receive_money_box [] n = Receive.mk [] 0 0 []
  /\ Withdrawal.cash_withdrawal_box round_1 [] n
     = Withdrawal.mk [] 0 (round_1 0) 0 []
  /\ Airtime.airtime_box [] n = Airtime.mk [] 0 0 [].
Proof.
  unfold Merchant.merchant_box, Paybill.paybill_box, Receive.receive_money_box,
    Withdrawal.cash_withdrawal_box, Airtime.airtime_box, head, nlargest.
  cbn. destruct (n <? 0), (n <=? 0); cbn; rewrite ?firstn_nil; repeat split.
Qed.

(** ** The pay-bill charge total *)

(** C6 fails on the code: with charge rows of two entities the processor
    reports the total of the entity that comes first by name, 10.00 here,
    where the largest charge total is 50.00. *)
Theorem paybill_charge_is_first_entity :
  let df := [mkRow "Pay Bill" "Pay Bill Charge" "KPLC PREPAID" (KSh 50) 0;
             mkRow "Pay Bill" "Pay Bill Charge" "AIRTEL MONEY" (KSh 10) 0] in
  Paybill.paybillCharges_df df
  = [("AIRTEL MONEY", 1, KSh 10); ("KPLC PREPAID", 1, KSh 50)]
  /\ Paybill.totalcharges (Paybill.paybill_box df 9) = KSh 10
  /\ Paybill.largest_charge df = KSh 50.
Proof. repeat split. Qed.

(** Without a pay-bill charge row the charge total is zero. *)
Lemma paybill_charge_zero (df : DataFrame) (n : Z) :
  filter (fun r => Str.contains "Pay Bill" (type_class r)
                   && Str.contains "Charge" (type_desc r)) df = [] ->
  Paybill.totalcharges (Paybill.paybill_box df n) = 0.
Proof.
  intros E. cbn [Paybill.paybill_box Paybill.totalcharges].
  unfold round_2, Paybill.paybillCharges, Paybill.paybillCharges_df.
  now rewrite E.
Qed.

(** With charge rows of one entity only, its total is reported. *)
Lemma paybill_charge_single_entity (df : DataFrame) (n : Z) (e : string) (t c : Z) :
  Paybill.paybillCharges_df df = [(e, c, t)] ->
  Paybill.totalcharges (Paybill.paybill_box df n) = t
  /\ Paybill.largest_charge df = t.
Proof.
  intros E. cbn [Paybill.paybill_box Paybill.totalcharges].
  unfold round_2, Paybill.paybillCharges, Paybill.largest_charge.
  rewrite E. now split.
Qed.

(** ** Received funds *)

Lemma receive_frame_keys_sorted (rows : DataFrame) :
  StronglySorted klt (map Receive.key (Receive.aggregate rows)).
Proof.
  unfold Receive.aggregate. rewrite map_map.
  unfold Receive.key. cbn [Receive.r_entity Receive.r_type_desc].
  erewrite map_ext; [apply (groupby_sorted (fun r => (entity r, type_desc r)))|].
  intros [[e d] rs]. reflexivity.
Qed.

Lemma receive_frame_keys (rows : DataFrame) (r : Row) :
  In r rows -> In (entity r, type_desc r) (map Receive.key (Receive.aggregate rows)).
Proof.
  intros Hin. unfold Receive.aggregate. rewrite map_map.
  unfold Receive.key. cbn [Receive.r_entity Receive.r_type_desc].
  erewrite map_ext
    with (g := fst (A := string * string) (B := list Row)).
  - apply (groupby_keys (fun r => (entity r, type_desc r))).
    now apply (in_map (fun r => (entity r, type_desc r))).
  - intros [[e d] rs]. reflexivity.
Qed.

(** C7: [receive_money_box] tags a row Individual exactly when its
    original description ends with from, and Business otherwise; it groups by
    the pair of entity name and tag, so that one name can stand in two rows of
    the frame, once per tag; the two-row scenario of the specification yields
    its two aggregate rows. *)
Theorem received_funds_tagging_and_grouping (df : DataFrame) (n : Z) :
  let frame := Receive.receiveFrame (Receive.receive_money_box df n) in
  (* tagging *)
  map type_desc (Receive.tagged df)
  = map (fun r => if Str.endswith "from" (type_desc r)
                  then "Individual" else "Business")
        (Receive.principal df)
  (* one row per pair, each pair of the tagged rows present *)
  /\ NoDup (map Receive.key frame)
  /\ Forall (fun r => In (entity r, type_desc r) (map Receive.key frame))
            (Receive.tagged df)
  /\ Forall (fun a =>
               let group :=
                 filter (fun r => (entity r =? Receive.r_entity a)%string
                                  && (type_desc r =? Receive.r_type_desc a)%string)
                        (Receive.tagged df) in
               group <> []
               /\ Receive.r_count a = count group
               /\ Receive.r_sum a = sumZ (map paid_in group))
            frame
  (* the same name under both tags *)
  /\ Receive.receiveFrame
       (Receive.receive_money_box
          [mkRow "Funds received" "from" "2547***12 Jane Roe" 0 (KSh 1000);
           mkRow "Funds received" "from Business" "Jane Roe" 0 (KSh 2000)] n)
     = [Receive.mkRAgg "Jane Roe" "Business" (KSh 2000) 1;
        Receive.mkRAgg "Jane Roe" "Individual" (KSh 1000) 1]
  (* the scenario of the specification *)
  /\ (let scenario :=
        Receive.receiveFrame
          (Receive.receive_money_box
             [mkRow "Funds received" "from" "2547***12 Jane Roe" 0 (KSh 1000);
              mkRow "Funds received" "from Business" "ABC Ltd" 0 (KSh 2000)] n) in
      scenario = [Receive.mkRAgg "ABC Ltd" "Business" (KSh 2000) 1;
                  Receive.mkRAgg "Jane Roe" "Individual" (KSh 1000) 1]
      /\ Permutation scenario
           [Receive.mkRAgg "Jane Roe" "Individual" (KSh 1000) 1;
            Receive.mkRAgg "ABC Ltd" "Business" (KSh 2000) 1]).
Proof.
  cbv zeta. cbn [Receive.receive_money_box Receive.receiveFrame].
  split; [|split; [|split; [|split; [|split; [|split]]]]].
  - unfold Receive.tagged, Receive.concat, Receive.principal, Receive.tag.
    rewrite map_map. cbn [type_desc set_type_desc].
    rewrite <- !(map_map type_desc
                  (fun d => if Str.endswith "from" d then "Individual" else "Business")).
    now rewrite !map_app, clean_entities_type_desc.
  - apply (StronglySorted_NoDup klt); [apply klt_irrefl|].
    apply receive_frame_keys_sorted.
  - apply Forall_forall. intros r. apply receive_frame_keys.
  - apply Forall_forall. intros a. apply receive_aggregate_In.
  - reflexivity.
  - reflexivity.
  - apply perm_swap.
Qed.

(** ** Name resolution *)

Lemma existsb_nth_error {A : Type} (p : A -> bool) (l : list A) (i : nat) (x : A) :
  nth_error l i = Some x -> p x = true -> existsb p l = true.
Proof.
  intros Hn Hp. apply existsb_exists. exists x. split; [|exact Hp].
  eapply nth_error_In. exact Hn.
Qed.

(** A masked row keeps its place and gets the name after its first space,
    title-cased. *)
Lemma clean_entities_masked (frame : DataFrame) (i : nat) (r : Row) :
  nth_error frame i = Some r -> mask r = true ->
  nth_error (clean_entities frame) i
  = Some (set_entity r (masked_name (entity r))).
Proof.
  intros Hn Hm. unfold clean_entities, partition_title_masked.
  rewrite (existsb_nth_error mask frame i r Hn Hm).
  rewrite nth_error_map, Hn. cbn [option_map]. now rewrite Hm.
Qed.

(** A row that is not masked keeps its place; it is title-cased by the
    handler, which runs when no row of the frame is masked, and left as it is
    otherwise. *)
Lemma clean_entities_unmasked (frame : DataFrame) (i : nat) (r : Row) :
  nth_error frame i = Some r -> mask r = false ->
  nth_error (clean_entities frame) i
  = Some (if existsb mask frame then r else set_entity r (Str.title (entity r))).
Proof.
  intros Hn Hm. unfold clean_entities, partition_title_masked, title_unmasked.
  destruct (existsb mask frame);
    rewrite nth_error_map, Hn; cbn [option_map]; now rewrite Hm.
Qed.

Lemma partition_2_no_space (s : string) :
  Str.has_char (fun c => (c =? " ")%char) s = false -> Str.partition_2 s = "".
Proof.
  induction s as [|c s IH]; cbn [Str.has_char Str.partition_2]; [reflexivity|].
  destruct (c =? " ")%char; [discriminate|exact IH].
Qed.

(** The entity of a cleaned peer-transfer row is an entity of the frame,
    when the processor returns. *)
Lemma transfer_frame_entity (df : DataFrame) (n : Z) (i : nat) (r' : Row) :
  nth_error (Transfer.cleaned df) i = Some r' ->
  match Transfer.customer_transfer_box df n with
  | Ok t => In (entity r') (map agg_entity (Transfer.transferFrame t))
  | Raise _ => Transfer.charge_rows df = []
  end.
Proof.
  intros Hn.
  transfer_cases df n.
  unfold Transfer.frame.
  apply (Permutation_in _ (Permutation_map agg_entity
           (Permutation_sym (sort_values_perm agg_sum false _)))).
  apply agg_withdrawn_entities, in_map. eapply nth_error_In. exact Hn.
Qed.



(** C4, as the code has it: a principal peer-transfer row whose
    counterparty holds no asterisk keeps its place; its entity is the
    title-cased counterparty when no principal row is masked (the handler
    ran), and the counterparty as it is when some principal row is masked.
    That name is an entity of the frame the processor returns. *)
Theorem unmasked_name_resolution (df : DataFrame) (n : Z) (i : nat) (r : Row) :
  nth_error (Transfer.principal df) i = Some r ->
  mask r = false ->
  let name := if existsb mask (Transfer.principal df)
              then entity r else Str.title (entity r) in
  nth_error (Transfer.cleaned df) i = Some (set_entity r name)
  /\ match Transfer.customer_transfer_box df n with
     | Ok t => In name (map agg_entity (Transfer.transferFrame t))
     | Raise _ => Transfer.charge_rows df = []
     end.
Proof.
  intros Hn Hm name.
  assert (Hc : nth_error (Transfer.cleaned df) i = Some (set_entity r name)).
  { unfold Transfer.cleaned. rewrite (clean_entities_unmasked _ _ _ Hn Hm).
    subst name. destruct (existsb mask (Transfer.principal df)); [|reflexivity].
    now destruct r. }
  split; [exact Hc|].
  apply (transfer_frame_entity df n i _ Hc).
Qed.

(** A transfer without asterisk, alone with a charge row: the handler runs
    and title-cases it. *)
Lemma unmasked_name_resolution_witness :
  let df := [Sample.safaricom; Sample.transfer_charge] in
  nth_error (Transfer.principal df) 0 = Some Sample.safaricom
  /\ mask Sample.safaricom = false
  /\ nth_error (Transfer.cleaned df) 0
     = Some (set_entity Sample.safaricom "Safaricom Data Bundles")
  /\ match Transfer.customer_transfer_box df 9 with
     | Ok t => In "Safaricom Data Bundles" (map agg_entity (Transfer.transferFrame t))
     | Raise _ => Transfer.charge_rows df = []
     end.
Proof.
  cbv zeta.
  split; [reflexivity|]. split; [reflexivity|].
  exact (unmasked_name_resolution
           [Sample.safaricom; Sample.transfer_charge] 9 0%nat Sample.safaricom
           eq_refl eq_refl).
Defined.

(** C4, as stated, fails: next to a masked row, a counterparty without
    asterisk enters the frame as it is, not title-cased. *)
Lemma unmasked_name_not_title_cased :
  let df := [Sample.john; Sample.safaricom; Sample.transfer_charge] in
  exists t,
    Transfer.customer_transfer_box df 9 = Ok t
    /\ map agg_entity (Transfer.transferFrame t)
       = ["John Doe"; "SAFARICOM DATA BUNDLES"]
    /\ ~ In (Str.title "SAFARICOM DATA BUNDLES")
            (map agg_entity (Transfer.transferFrame t)).
Proof.
  cbv zeta. eexists. split; [reflexivity|]. split; [reflexivity|].
  cbn. intros [E|[E|[]]]; discriminate.
Qed.

(** ** The pay-bill split *)

Section PaybillPattern.

Import Str.

Lemma strip_prefix_prefix (p s r : string) :
  strip_prefix p s = Some r -> prefix p s = true.
Proof.
  revert s. induction p as [|a p IH]; intros [|b s]; cbn; try discriminate; auto.
  destruct (Ascii.eqb_spec a b) as [->|Hne]; [|discriminate].
  intros E. destruct (ascii_dec b b); [eauto|contradiction].
Qed.

Lemma contains_cons (p : string) (c : ascii) (s : string) :
  contains p s = true -> contains p (String c s) = true.
Proof. intros E. cbn [contains]. rewrite E. apply orb_true_r. Qed.

Lemma contains_cons_false (p : string) (c : ascii) (s : string) :
  contains p (String c s) = false ->
  prefix p (String c s) = false /\ contains p s = false.
Proof. cbn [contains]. apply orb_false_elim. Qed.

Lemma contains_prefix (p s : string) : prefix p s = true -> contains p s = true.
Proof. intros E. destruct s; cbn [contains]; now rewrite E. Qed.

Lemma contains_skip_space (p s : string) :
  contains p (skip_space s) = true -> contains p s = true.
Proof.
  induction s as [|c s IH]; cbn [skip_space]; [auto|].
  destruct (is_space c); [|auto].
  intros E. apply contains_cons. auto.
Qed.

(** The separator alternative needs the text Acc. somewhere. *)
Lemma acc_alt_contains (s a : string) :
  acc_alt s = Some a -> contains "Acc." s = true.
Proof.
  unfold acc_alt, space_plus. destruct s as [|c s]; [discriminate|].
  destruct (is_space c); [|discriminate].
  destruct (strip_prefix "Acc." (skip_space s)) as [s2|] eqn:E; [|discriminate].
  intros _. apply contains_cons, contains_skip_space, contains_prefix.
  eapply strip_prefix_prefix. exact E.
Qed.

Lemma single_line_cons (c : ascii) (s : string) :
  single_line (String c s) = true ->
  (c =? LF)%char = false /\ single_line s = true.
Proof.
  unfold single_line. cbn [has_char]. rewrite negb_orb.
  intros E. apply andb_prop in E. destruct E as [E1 E2].
  split; [now apply negb_true_iff|exact E2].
Qed.

Lemma line_single (s : string) : single_line s = true -> line s = s.
Proof.
  induction s as [|c s IH]; [reflexivity|].
  intros E. apply single_line_cons in E. destruct E as [E1 E2].
  cbn [line]. now rewrite E1, IH.
Qed.

Lemma skip_space_start (s : string) : starts_space s = false -> skip_space s = s.
Proof. destruct s as [|c s]; cbn; [reflexivity|]. now intros ->. Qed.

(** A cell of one line without the text Acc. is its own business name,
    and has no account. *)
Lemma match_here_no_separator (s : string) :
  single_line s = true -> contains "Acc." s = false ->
  match_here s = Some (s, None).
Proof.
  induction s as [|c s IH]; intros Hl Hc; [reflexivity|].
  apply single_line_cons in Hl. destruct Hl as [HcLF Hl].
  cbn [match_here].
  destruct (acc_alt (String c s)) as [a|] eqn:E.
  - apply acc_alt_contains in E. congruence.
  - apply contains_cons_false in Hc. destruct Hc as [_ Hc].
    assert (D : at_dollar (String c s) = false).
    { cbn [at_dollar]. destruct s; [exact HcLF|reflexivity]. }
    rewrite D, HcLF, (IH Hl Hc). reflexivity.
Qed.

Lemma extract_no_separator (s : string) :
  single_line s = true -> contains "Acc." s = false ->
  extract s = (Some s, None).
Proof.
  intros Hl Hc. unfold extract.
  destruct s; cbn [search]; now rewrite match_here_no_separator.
Qed.

(** The text Acc. cannot begin inside [x] and run over a space. *)
Lemma strip_prefix_over_space (p x y r : string) :
  has_char (fun c => (c =? " ")%char) p = false ->
  strip_prefix p (x ++ String " " y) = Some r -> prefix p x = true.
Proof.
  revert x. induction p as [|a p IH]; intros x Hp;
    [intros _; destruct x; reflexivity|].
  cbn [has_char] in Hp. apply orb_false_elim in Hp. destruct Hp as [Ha Hp].
  destruct x as [|c x]; cbn [append strip_prefix prefix].
  - rewrite Ha. discriminate.
  - destruct (Ascii.eqb_spec a c) as [->|Hne]; [|discriminate].
    intros E. destruct (ascii_dec c c); [eauto|contradiction].
Qed.

Lemma skip_space_inside (b y : string) :
  b <> "" -> ends_space b = false -> contains "Acc." b = false ->
  strip_prefix "Acc." (skip_space (b ++ String " " y)) = None.
Proof.
  induction b as [|c b IH]; intros Hne He Hc; [contradiction|].
  apply contains_cons_false in Hc. destruct Hc as [Hp Hc].
  cbn [append skip_space].
  destruct (is_space c) eqn:Ec.
  - apply IH; [| |exact Hc].
    + intros ->. cbn in He. congruence.
    + destruct b; [cbn in He; congruence|exact He].
  - destruct (strip_prefix "Acc." (String c (b ++ String " " y))) eqn:E;
      [|reflexivity].
    apply (strip_prefix_over_space "Acc." (String c b)) in E; [|reflexivity].
    congruence.
Qed.

Lemma acc_alt_inside (c : ascii) (b y : string) :
  ends_space (String c b) = false -> contains "Acc." (String c b) = false ->
  acc_alt (String c b ++ String " " y) = None.
Proof.
  intros He Hc. unfold acc_alt, space_plus. cbn [append].
  destruct (is_space c) eqn:Ec; [|reflexivity].
  apply contains_cons_false in Hc. destruct Hc as [_ Hc].
  rewrite skip_space_inside; [reflexivity| | |exact Hc].
  - intros ->. cbn in He. congruence.
  - destruct b; [cbn in He; congruence|exact He].
Qed.

Lemma acc_alt_separator (a : string) :
  acc_alt (String " " ("Acc. " ++ a)) = Some (line (skip_space a)).
Proof. reflexivity. Qed.

(** A cell made of a business name, the separator and an account splits
    into the two. *)
Lemma match_here_separator (b a : string) :
  single_line b = true -> single_line a = true ->
  contains "Acc." b = false -> ends_space b = false -> starts_space a = false ->
  match_here (b ++ " Acc. " ++ a) = Some (b, Some a).
Proof.
  intros Hb Ha Hc He Hs.
  induction b as [|c b IH].
  - change ("" ++ " Acc. " ++ a) with (String " " ("Acc. " ++ a)).
    cbn [match_here]. rewrite acc_alt_separator.
    now rewrite (skip_space_start a Hs), (line_single a Ha).
  - apply single_line_cons in Hb. destruct Hb as [HcLF Hb].
    assert (Hc' := Hc). apply contains_cons_false in Hc'.
    destruct Hc' as [_ Hc'].
    assert (He' : ends_space b = false).
    { destruct b; [reflexivity|exact He]. }
    specialize (IH Hb Hc' He').
    change (String c b ++ " Acc. " ++ a)
      with (String c (b ++ " Acc. " ++ a)) in *.
    cbn [match_here].
    change (String c (b ++ " Acc. " ++ a))
      with (String c b ++ String " " ("Acc. " ++ a)).
    rewrite (acc_alt_inside c b _ He Hc).
    change (String c b ++ String " " ("Acc. " ++ a))
      with (String c (b ++ " Acc. " ++ a)).
    assert (D : at_dollar (String c (b ++ " Acc. " ++ a)) = false).
    { cbn [at_dollar]. destruct b; reflexivity. }
    rewrite D, HcLF, IH. reflexivity.
Qed.

Lemma extract_separator (b a : string) :
  single_line b = true -> single_line a = true ->
  contains "Acc." b = false -> ends_space b = false -> starts_space a = false ->
  extract (b ++ " Acc. " ++ a) = (Some b, Some a).
Proof.
  intros Hb Ha Hc He Hs. unfold extract.
  pose proof (match_here_separator b a Hb Ha Hc He Hs) as M.
  destruct (b ++ " Acc. " ++ a); cbn [search]; now rewrite M.
Qed.

End PaybillPattern.

Lemma keyed_In (xs : list Paybill.XRow) (x : Paybill.XRow) (k : string) :
  In x xs -> Paybill.entity2 x = Some k -> In (k, x) (Paybill.keyed xs).
Proof.
  induction xs as [|y xs IH]; intros Hin Hk; [contradiction|].
  cbn [Paybill.keyed]. destruct Hin as [->|Hin].
  - rewrite Hk. now left.
  - destruct (Paybill.entity2 y); [right|]; now apply IH.
Qed.

Lemma paybill_frame_business (df : DataFrame) (r : Row) :
  In r (Paybill.principal df) ->
  exists k, Paybill.business_of r = Some k
            /\ In k (map Paybill.p_entity2 (Paybill.frame df)).
Proof.
  intros Hin.
  destruct (Paybill.business_of r) as [k|] eqn:E;
    [|now apply business_of_some in E].
  exists k. split; [reflexivity|].
  unfold Paybill.frame.
  apply (Permutation_in _ (Permutation_map Paybill.p_entity2
           (Permutation_sym (sort_values_perm Paybill.p_sum false _)))).
  unfold Paybill.aggregate. rewrite map_map. cbn [Paybill.p_entity2].
  apply (groupby_keys fst).
  apply (in_map fst _ (k, Paybill.extract_row r)).
  apply keyed_In; [now apply in_map|exact E].
Qed.

Lemma paybill_frame_NoDup (df : DataFrame) :
  NoDup (map Paybill.p_entity2 (Paybill.frame df)).
Proof.
  unfold Paybill.frame.
  apply (Permutation_NoDup
           (Permutation_map Paybill.p_entity2
              (Permutation_sym (sort_values_perm Paybill.p_sum false _)))).
  apply (StronglySorted_NoDup klt); [apply klt_irrefl|].
  apply StronglySorted_map_inv. apply paybill_aggregate_sorted.
Qed.

(** C5, as the code has it: the counterparty of a pay-bill principal row
    splits into the business name in front of the first separator (white
    space, Acc., white space) and the account reference behind it; without
    separator the business name is the whole cell and the account reference is
    missing.  The frame has one row per business name; its side attribute
    joins, with a comma and a space, the account reference of every row of the
    business name in ledger order, a missing reference printing as nan. *)
Theorem paybill_split_and_accounts (df : DataFrame) (n : Z) :
  let frame := Paybill.paybillFrame (Paybill.paybill_box df n) in
  Str.extract "KPLC PREPAID Acc. 123456" = (Some "KPLC PREPAID", Some "123456")
  /\ Str.extract "KPLC PREPAID" = (Some "KPLC PREPAID", None)
  /\ (forall b a : string,
         Str.single_line b = true -> Str.single_line a = true ->
         Str.contains "Acc." b = false ->
         Str.ends_space b = false -> Str.starts_space a = false ->
         Str.extract (b ++ " Acc. " ++ a) = (Some b, Some a))
  /\ (forall s : string,
         Str.single_line s = true -> Str.contains "Acc." s = false ->
         Str.extract s = (Some s, None))
  /\ NoDup (map Paybill.p_entity2 frame)
  /\ Forall (fun r => exists k, Paybill.business_of r = Some k
                                /\ In k (map Paybill.p_entity2 frame))
            (Paybill.principal df)
  /\ Forall (fun a =>
               let group := Paybill.group (Paybill.p_entity2 a)
                                          (Paybill.principal df) in
               group <> []
               /\ Paybill.p_count a = count group
               /\ Paybill.p_sum a = sumZ (map withdrawn group)
               /\ Paybill.p_accounts a
                  = Str.join ", "
                      (map (fun r => match Paybill.account_of r with
                                     | Some acc => acc
                                     | None => "nan"
                                     end)
                           group))
            frame.
Proof.
  cbv zeta. cbn [Paybill.paybill_box Paybill.paybillFrame].
  split; [reflexivity|]. split; [reflexivity|].
  split; [exact extract_separator|]. split; [exact extract_no_separator|].
  split; [apply paybill_frame_NoDup|]. split.
  - apply Forall_forall. intros r. apply paybill_frame_business.
  - apply Forall_forall. intros a Ha.
    apply sort_values_In in Ha. apply paybill_aggregate_In in Ha.
    destruct Ha as (H1 & H2 & H3 & H4).
    repeat split; try assumption.
    rewrite H4. unfold Paybill.agg_concat. now rewrite map_map.
Qed.

(** The two general splits, at a business name and an account that hold
    spaces. *)
Lemma paybill_split_and_accounts_witness :
  Str.single_line "ZUKU FIBER" = true
  /\ Str.single_line "77 001" = true
  /\ Str.contains "Acc." "ZUKU FIBER" = false
  /\ Str.ends_space "ZUKU FIBER" = false
  /\ Str.starts_space "77 001" = false
  /\ Str.extract ("ZUKU FIBER" ++ " Acc. " ++ "77 001")
     = (Some "ZUKU FIBER", Some "77 001")
  /\ Str.extract "ZUKU FIBER" = (Some "ZUKU FIBER", None).
Proof.
  pose proof (paybill_split_and_accounts [Sample.kplc_account] 9) as T.
  cbv zeta in T. destruct T as (_ & _ & T1 & T2 & _).
  do 5 (split; [reflexivity|]).
  split.
  - exact (T1 "ZUKU FIBER" "77 001" eq_refl eq_refl eq_refl eq_refl eq_refl).
  - exact (T2 "ZUKU FIBER" eq_refl eq_refl).
Defined.

(** C5, as stated, fails: a cell without separator has a missing account
    reference, not an empty one, and the side attribute lists the reference of
    every row, nan for a missing one, where the account references seen in
    order of first appearance would read otherwise. *)
Lemma paybill_accounts_not_as_stated :
  let df := [Sample.kplc_account; Sample.kplc_plain; Sample.kplc_account] in
  Paybill.account_of Sample.kplc_plain = None
  /\ Paybill.account_of Sample.kplc_plain <> Some ""
  /\ map Paybill.p_accounts (Paybill.paybillFrame (Paybill.paybill_box df 9))
     = ["123456, nan, 123456"]
  /\ Paybill.seen_accounts (Paybill.group "KPLC PREPAID" (Paybill.principal df))
     = "123456, "
  /\ map Paybill.p_accounts (Paybill.paybillFrame (Paybill.paybill_box df 9))
     <> [Paybill.seen_accounts
           (Paybill.group "KPLC PREPAID" (Paybill.principal df))].
Proof.
  cbv zeta. repeat split; try reflexivity; discriminate.
Qed.

(** * Further properties *)

(** ** The order of the ledger rows *)

Lemma filter_perm {A : Type} (p : A -> bool) (l l' : list A) :
  Permutation l l' -> Permutation (filter p l) (filter p l').
Proof.
  induction 1 as [|x l l' _ IH|x y l|l l' l'' _ IH1 _ IH2]; cbn [filter].
  - constructor.
  - destruct (p x); [now constructor|exact IH].
  - destruct (p x), (p y); try reflexivity. apply perm_swap.
  - now transitivity (filter p l').
Qed.

Lemma sumZ_perm (l l' : list Z) : Permutation l l' -> sumZ l = sumZ l'.
Proof.
  induction 1 as [|x l l' _ IH|x y l|l l' l'' _ IH1 _ IH2];
    rewrite ?sumZ_cons; lia.
Qed.

Lemma count_perm {A : Type} (l l' : list A) : Permutation l l' -> count l = count l'.
Proof. intros P. unfold count. now rewrite (Permutation_length P). Qed.

Lemma existsb_perm {A : Type} (p : A -> bool) (l l' : list A) :
  Permutation l l' -> existsb p l = existsb p l'.
Proof.
  induction 1 as [|x l l' _ IH|x y l|l l' l'' _ IH1 _ IH2]; cbn [existsb].
  - reflexivity.
  - now rewrite IH.
  - destruct (p x), (p y); reflexivity.
  - congruence.
Qed.

Section GroupByOrder.

Context {K : Type} `{KeyOrderLaws K} {A : Type}.
Variable key : A -> K.

(** Two lists of keys in strictly ascending order with the same members are
    the same list. *)
Lemma sorted_keys_unique (l l' : list K) :
  StronglySorted klt l -> StronglySorted klt l' ->
  (forall k, In k l <-> In k l') -> l = l'.
Proof.
  intros Hl. revert l'.
  induction Hl as [|a l Hl IH Ha]; intros l' Hl' Hin.
  - destruct l' as [|b l']; [reflexivity|].
    exfalso. apply (Hin b). now left.
  - destruct Hl' as [|b l' Hl' Hb].
    + exfalso. apply (Hin a). now left.
    + rewrite Forall_forall in Ha, Hb.
      assert (E : a = b).
      { destruct (proj1 (Hin a) (or_introl eq_refl)) as [E|Ia]; [now symmetry|].
        destruct (proj2 (Hin b) (or_introl eq_refl)) as [E|Ib]; [exact E|].
        exfalso. apply (klt_irrefl a).
        apply (klt_trans _ b); [now apply Ha|now apply Hb]. }
      subst b. f_equal. apply IH; [exact Hl'|].
      intros k. split; intros Hk.
      * destruct (proj1 (Hin k) (or_intror Hk)) as [E|Hk']; [|exact Hk'].
        subst k. exfalso. apply (klt_irrefl a). now apply Ha.
      * destruct (proj2 (Hin k) (or_intror Hk)) as [E|Hk']; [|exact Hk'].
        subst k. exfalso. apply (klt_irrefl a). now apply Hb.
Qed.

Lemma groups_as_map (gs : list (K * list A)) :
  StronglySorted klt (keys gs) ->
  gs = map (fun k => (k, group_of k gs)) (keys gs).
Proof.
  induction gs as [|[k rs] gs IH]; cbn [keys map fst]; intros Hs;
    [reflexivity|].
  apply StronglySorted_inv in Hs. destruct Hs as [Hs Hk].
  cbn [group_of]. rewrite keqb_refl. f_equal.
  rewrite (IH Hs) at 1. apply map_ext_in.
  intros k' Hk'. rewrite Forall_forall in Hk.
  destruct (klt_keqb _ _ (Hk k' Hk')) as [_ ->]. reflexivity.
Qed.

(** A grouped frame is its keys, each with the rows of the ledger that
    carry it. *)
Lemma groupby_as_map (rows : list A) :
  groupby key rows
  = map (fun k => (k, filter (fun r => keqb (key r) k) rows))
        (keys (groupby key rows)).
Proof.
  rewrite (groups_as_map (groupby key rows)) at 1 by apply groupby_sorted.
  apply map_ext. intros k. now rewrite group_of_groupby.
Qed.

Lemma groupby_keys_perm (rows rows' : list A) :
  Permutation rows rows' ->
  keys (groupby key rows) = keys (groupby key rows').
Proof.
  intros P. apply sorted_keys_unique; try apply groupby_sorted.
  intros k. rewrite !groupby_keys.
  split; apply Permutation_in; [|symmetry]; now apply Permutation_map.
Qed.

(** An aggregation that does not look at the order of the rows of a group
    gives the same frame on a ledger and on any reordering of it. *)
Lemma groupby_agg_perm {B : Type} (agg : K -> list A -> B) (rows rows' : list A) :
  (forall k l l', Permutation l l' -> agg k l = agg k l') ->
  Permutation rows rows' ->
  map (fun g => agg (fst g) (snd g)) (groupby key rows)
  = map (fun g => agg (fst g) (snd g)) (groupby key rows').
Proof.
  intros Hagg P.
  rewrite (groupby_as_map rows), (groupby_as_map rows'), !map_map.
  cbn [fst snd]. rewrite (groupby_keys_perm rows rows' P).
  apply map_ext. intros k. apply Hagg. now apply filter_perm.
Qed.

End GroupByOrder.

Lemma agg_withdrawn_perm (rows rows' : DataFrame) :
  Permutation rows rows' -> agg_withdrawn rows = agg_withdrawn rows'.
Proof.
  intros P. unfold agg_withdrawn.
  apply (groupby_agg_perm entity
           (fun k l => mkAgg k (count l) (sumZ (map withdrawn l)))); [|exact P].
  intros k l l' Pl. f_equal; [now apply count_perm|].
  apply sumZ_perm. now apply Permutation_map.
Qed.

Lemma clean_entities_perm (frame frame' : DataFrame) :
  Permutation frame frame' ->
  Permutation (clean_entities frame) (clean_entities frame').
Proof.
  intros P. unfold clean_entities, partition_title_masked, title_unmasked.
  rewrite (existsb_perm mask frame frame' P).
  destruct (existsb mask frame'); now apply Permutation_map.
Qed.

Lemma withdrawn_perm (p : Row -> bool) (df df' : DataFrame) :
  Permutation df df' ->
  sumZ (map withdrawn (filter p df)) = sumZ (map withdrawn (filter p df')).
Proof.
  intros P. apply sumZ_perm, Permutation_map. now apply filter_perm.
Qed.



Lemma transfer_frame_perm (df df' : DataFrame) :
  Permutation df df' -> Transfer.frame df = Transfer.frame df'.
Proof.
  intros P. unfold Transfer.frame, Transfer.cleaned, Transfer.principal,
    Transfer.in_category.
  f_equal. apply agg_withdrawn_perm, clean_entities_perm.
  now do 2 apply filter_perm.
Qed.

Lemma transferChargesFrame_perm (df df' : DataFrame) :
  Permutation df df' ->
  Transfer.transferChargesFrame df = Transfer.transferChargesFrame df'.
Proof.
  intros P. unfold Transfer.transferChargesFrame, Transfer.charge_rows,
    Transfer.in_category.
  f_equal.
  apply (groupby_agg_perm type_class (fun k l => (k, sumZ (map withdrawn l)))).
  - intros k l l' Pl. f_equal. apply sumZ_perm. now apply Permutation_map.
  - now do 2 apply filter_perm.
Qed.



Lemma tagged_perm (df df' : DataFrame) :
  Permutation df df' -> Permutation (Receive.tagged df) (Receive.tagged df').
Proof.
  intros P. unfold Receive.tagged, Receive.concat, Receive.individual,
    Receive.receiveFrame_business.
  apply Permutation_map, Permutation_app.
  - now apply clean_entities_perm, filter_perm.
  - now apply filter_perm.
Qed.

Lemma receive_frame_perm (df df' : DataFrame) :
  Permutation df df' -> Receive.frame df = Receive.frame df'.
Proof.
  intros P. unfold Receive.frame, Receive.aggregate.
  apply (groupby_agg_perm (fun r => (entity r, type_desc r))
           (fun k l => Receive.mkRAgg (fst k) (snd k)
                         (sumZ (map paid_in l)) (count l)));
    [|now apply tagged_perm].
  intros k l l' Pl. f_equal; [|now apply count_perm].
  apply sumZ_perm. now apply Permutation_map.
Qed.



Lemma insert_row_map {A B : Type} (colA : A -> Z) (colB : B -> Z) (f : A -> B)
  (asc : bool) (x : A) (l : list A) :
  (forall x, colB (f x) = colA x) ->
  map f (insert_row colA asc x l) = insert_row colB asc (f x) (map f l).
Proof.
  intros Hcol. induction l as [|y l IH]; [reflexivity|].
  cbn [insert_row map]. unfold col_le. rewrite !Hcol.
  destruct (if asc then colA x <=? colA y else colA y <=? colA x);
    [reflexivity|]. cbn [map]. now rewrite IH.
Qed.

(** Sorting looks at the sorted column only. *)
Lemma sort_values_map {A B : Type} (colA : A -> Z) (colB : B -> Z) (f : A -> B)
  (asc : bool) (l : list A) :
  (forall x, colB (f x) = colA x) ->
  map f (sort_values colA asc l) = sort_values colB asc (map f l).
Proof.
  intros Hcol. induction l as [|x l IH]; [reflexivity|].
  cbn [sort_values fold_right map].
  fold (sort_values colA asc l). fold (sort_values colB asc (map f l)).
  now rewrite (insert_row_map colA colB f asc x _ Hcol), IH.
Qed.

Lemma keyed_perm (xs xs' : list Paybill.XRow) :
  Permutation xs xs' -> Permutation (Paybill.keyed xs) (Paybill.keyed xs').
Proof.
  induction 1 as [|x l l' _ IH|x y l|l l' l'' _ IH1 _ IH2]; cbn [Paybill.keyed].
  - constructor.
  - destruct (Paybill.entity2 x); [now constructor|exact IH].
  - destruct (Paybill.entity2 x), (Paybill.entity2 y); try reflexivity.
    apply perm_swap.
  - now transitivity (Paybill.keyed l').
Qed.

Lemma paybillCharges_df_perm (df df' : DataFrame) :
  Permutation df df' ->
  Paybill.paybillCharges_df df = Paybill.paybillCharges_df df'.
Proof.
  intros P. unfold Paybill.paybillCharges_df.
  apply (groupby_agg_perm entity
           (fun k l => (k, count l, sumZ (map withdrawn l))));
    [|now apply filter_perm].
  intros k l l' Pl. f_equal; [f_equal; now apply count_perm|].
  apply sumZ_perm. now apply Permutation_map.
Qed.

Lemma paybill_frame_columns_perm (df df' : DataFrame) :
  Permutation df df' ->
  map (fun a => (Paybill.p_entity2 a, Paybill.p_count a, Paybill.p_sum a))
      (Paybill.frame df)
  = map (fun a => (Paybill.p_entity2 a, Paybill.p_count a, Paybill.p_sum a))
        (Paybill.frame df').
Proof.
  intros P. unfold Paybill.frame.
  rewrite !(sort_values_map Paybill.p_sum snd
              (fun a => (Paybill.p_entity2 a, Paybill.p_count a, Paybill.p_sum a)))
    by reflexivity.
  f_equal. unfold Paybill.aggregate. rewrite !map_map.
  cbn [Paybill.p_entity2 Paybill.p_count Paybill.p_sum].
  apply (groupby_agg_perm fst
           (fun k l => (k, count l,
                        sumZ (map (fun kx => withdrawn (Paybill.row (snd kx))) l)))).
  - intros k l l' Pl. f_equal; [f_equal; now apply count_perm|].
    apply sumZ_perm. now apply Permutation_map.
  - apply keyed_perm, Permutation_map. unfold Paybill.principal.
    now apply filter_perm.
Qed.



(** ** Charts and tables *)

Section Charts.

Context {A : Type}.
Variable col : A -> Z.

Lemma head_nonneg (n : Z) (l : list A) :
  0 <= n -> head n l = firstn (Z.to_nat n) l.
Proof. intros Hn. unfold head. destruct (Z.ltb_spec n 0); [lia|reflexivity]. Qed.

Lemma nlargest_firstn (n : Z) (l : list A) :
  nlargest col n l = firstn (Z.to_nat n) (sort_values col false l).
Proof.
  unfold nlargest. destruct (Z.leb_spec n 0) as [Hn|Hn]; [|reflexivity].
  replace (Z.to_nat n) with 0%nat by lia. reflexivity.
Qed.

Lemma sorted_app_inv (R : A -> A -> Prop) (l1 l2 : list A) (a b : A) :
  StronglySorted R (l1 ++ l2) -> In a l1 -> In b l2 -> R a b.
Proof.
  induction l1 as [|x l1 IH]; cbn [app]; intros Hs Ha Hb; [contradiction|].
  apply StronglySorted_inv in Hs. destruct Hs as [Hs Hx].
  destruct Ha as [->|Ha]; [|now apply IH].
  rewrite Forall_forall in Hx. apply Hx, in_or_app. now right.
Qed.

Lemma descending_sort (l : list A) : descending col (sort_values col false l).
Proof.
  unfold descending.
  pose proof (sort_values_sorted col false l) as Hs.
  induction Hs as [|x m Hs IH Hx]; constructor; [exact IH|].
  eapply Forall_impl; [|exact Hx]. intros y. unfold col_le. lia.
Qed.

Lemma ascending_sort (key : A -> Z) (l : list A) :
  ascending key (sort_values key true l).
Proof.
  unfold ascending.
  pose proof (sort_values_sorted key true l) as Hs.
  induction Hs as [|x m Hs IH Hx]; constructor; [exact IH|].
  eapply Forall_impl; [|exact Hx]. intros y. unfold col_le. lia.
Qed.

Lemma firstn_incl (k : nat) (l : list A) : incl (firstn k l) l.
Proof.
  intros x Hx. rewrite <- (firstn_skipn k l). apply in_or_app. now left.
Qed.

(** The first rows of a frame in descending order are its largest. *)
Lemma firstn_picks_largest (k : nat) (l : list A) :
  descending col l -> picks_largest col l (firstn k l).
Proof.
  intros Hs. split; [apply firstn_incl|].
  intros b Hb. rewrite <- (firstn_skipn k l) in Hb, Hs.
  apply in_app_or in Hb. destruct Hb as [Hb|Hb]; [now left|right].
  intros a Ha. exact (sorted_app_inv _ _ _ a b Hs Ha Hb).
Qed.

Lemma picks_largest_perm (frame frame' shown shown' : list A) :
  Permutation frame frame' -> Permutation shown shown' ->
  picks_largest col frame shown -> picks_largest col frame' shown'.
Proof.
  intros Pf Ps [Hi Hc]. split.
  - intros x Hx. apply (Permutation_in _ Pf), Hi.
    exact (Permutation_in _ (Permutation_sym Ps) Hx).
  - intros b Hb.
    destruct (Hc b (Permutation_in _ (Permutation_sym Pf) Hb)) as [Hs|Hd].
    + left. exact (Permutation_in _ Ps Hs).
    + right. intros a Ha. apply Hd.
      exact (Permutation_in _ (Permutation_sym Ps) Ha).
Qed.

(** The bar charts: the head of a frame sorted descending, drawn ascending. *)
Lemma head_chart (key : A -> Z) (n : Z) (frame : list A) :
  0 <= n -> descending col frame ->
  top_chart col key n frame (sort_values key true (head n frame)).
Proof.
  intros Hn Hs. rewrite (head_nonneg n frame Hn). split; [|split].
  - apply (picks_largest_perm frame frame (firstn (Z.to_nat n) frame));
      [reflexivity|symmetry; apply sort_values_perm|].
    apply (firstn_picks_largest _ _ Hs).
  - apply ascending_sort.
  - now rewrite sort_values_length, length_firstn.
Qed.

(** The charts made with [nlargest], for any [n]. *)
Lemma nlargest_picks_largest (n : Z) (frame : list A) :
  picks_largest col frame (nlargest col n frame)
  /\ descending col (nlargest col n frame)
  /\ List.length (nlargest col n frame)
     = Nat.min (Z.to_nat n) (List.length frame).
Proof.
  rewrite nlargest_firstn. split; [|split].
  - apply (picks_largest_perm (sort_values col false frame) frame
             (firstn (Z.to_nat n) (sort_values col false frame)));
      [apply sort_values_perm|reflexivity|].
    apply firstn_picks_largest, descending_sort.
  - apply firstn_sorted, descending_sort.
  - now rewrite length_firstn, sort_values_length.
Qed.

End Charts.




(** X7.  The pie chart of [airtime_box], for any number of slices: the rows of
    the frame with the largest sums, as many as asked for or all of them, in
    descending order of sum. *)
Theorem airtime_chart_shows_largest (df : DataFrame) (n : Z) :
  let a := Airtime.airtime_box df n in
  picks_largest agg_sum (Airtime.airtimeFrame a) (Airtime.topAirtime_fig a)
  /\ descending agg_sum (Airtime.topAirtime_fig a)
  /\ List.length (Airtime.topAirtime_fig a)
     = Nat.min (Z.to_nat n) (List.length (Airtime.airtimeFrame a)).
Proof.
  cbv zeta. cbn [Airtime.airtime_box Airtime.airtimeFrame Airtime.topAirtime_fig].
  assert (E : sort_values agg_sum false (nlargest agg_sum n (Airtime.frame df))
              = nlargest agg_sum n (Airtime.frame df)).
  { rewrite nlargest_firstn.
    apply sort_values_sorted_id, firstn_sorted, sort_values_sorted. }
  rewrite E. apply nlargest_picks_largest.
Qed.

(** X8.  The tables of the most frequent counterparties on the page, for a
    number of lines that is not negative: the pairs of name and count of the
    frame with the largest counts, as many as asked for or all of them, in
    descending order of count. *)
Theorem most_frequent_shows_largest {A : Type} (name : A -> string)
  (cnt : A -> Z) (n : Z) (frame : list A) :
  0 <= n ->
  let table := Page.most_frequent name cnt n frame in
  picks_largest snd (map (fun a => (name a, cnt a)) frame) table
  /\ descending snd table
  /\ List.length table = Nat.min (Z.to_nat n) (List.length frame).
Proof.
  intros Hn table. subst table. unfold Page.most_frequent.
  rewrite head_nonneg by exact Hn.
  rewrite <- (length_map (fun a => (name a, cnt a)) frame).
  rewrite <- (nlargest_firstn snd n).
  apply nlargest_picks_largest.
Qed.

(** Three merchants, the two most frequented. *)
Lemma most_frequent_shows_largest_witness :
  let frame := [mkAgg "Carrefour" 1 (KSh 900); mkAgg "Naivas" 4 (KSh 500);
                mkAgg "Quickmart" 2 (KSh 200)] in
  0 <= 2
  /\ Page.most_frequent agg_entity agg_count 2 frame
     = [("Naivas", 4); ("Quickmart", 2)]
  /\ descending snd (Page.most_frequent agg_entity agg_count 2 frame).
Proof.
  intros frame. split; [lia|]. split; [reflexivity|].
  exact (proj1 (proj2 (most_frequent_shows_largest agg_entity agg_count 2 frame
                         ltac:(lia)))).
Defined.

(** ** Charge totals *)

Section FirstGroup.

Context {K : Type} `{KeyOrderLaws K} {A : Type}.
Variable key : A -> K.

(** The first group of a grouped frame has the least key of the ledger and
    holds the rows of that key. *)
Lemma groupby_first (rows : list A) (k : K) (rs : list A)
  (gs : list (K * list A)) :
  groupby key rows = (k, rs) :: gs ->
  In k (map key rows)
  /\ (forall k', In k' (map key rows) -> k' = k \/ klt k k')
  /\ rs = filter (fun r => keqb (key r) k) rows.
Proof.
  intros E.
  pose proof (groupby_sorted key rows) as Hs.
  pose proof (groupby_keys key rows) as Hk.
  pose proof (groupby_In key rows k rs) as Hin.
  rewrite E in Hs, Hk, Hin. cbn [keys map fst] in Hs, Hk.
  apply StronglySorted_inv in Hs. destruct Hs as [_ Hs].
  rewrite Forall_forall in Hs.
  split; [apply Hk; now left|]. split.
  - intros k' Hk'. apply Hk in Hk'. destruct Hk' as [->|Hk']; [now left|].
    right. now apply Hs.
  - apply Hin. now left.
Qed.

End FirstGroup.

(** X9.  The charge total of [paybill_box]: zero without pay-bill charge row;
    otherwise the withdrawn amounts of the charge rows of one entity, the
    first in the order of entity names, whatever the other entities were
    charged. *)
Theorem paybill_charge_total (df : DataFrame) (n : Z) :
  let charges := paybill_charge_rows df in
  let total := Paybill.totalcharges (Paybill.paybill_box df n) in
  match charges with
  | [] => total = 0
  | _ :: _ =>
      exists e,
        In e (map entity charges)
        /\ (forall e', In e' (map entity charges) ->
                       e' = e \/ String.compare e e' = Lt)
        /\ total = sumZ (map withdrawn
                           (filter (fun r => (entity r =? e)%string) charges))
  end.
Proof.
  cbv zeta. cbn [Paybill.paybill_box Paybill.totalcharges].
  unfold round_2, Paybill.paybillCharges, Paybill.paybillCharges_df.
  fold (paybill_charge_rows df).
  destruct (paybill_charge_rows df) as [|c cs] eqn:C; [reflexivity|].
  destruct (groupby entity (c :: cs)) as [|[k rs] gs] eqn:G.
  - exfalso. pose proof (groupby_keys entity (c :: cs) (entity c)) as Hk.
    rewrite G in Hk. apply Hk. now left.
  - destruct (groupby_first entity _ _ _ _ G) as (H1 & H2 & H3).
    exists k. split; [exact H1|]. split; [exact H2|].
    cbn [map fst snd]. rewrite H3. do 2 f_equal.
    apply filter_ext. intros r. apply keqb_string.
Qed.

(** X10.  The charge total of [customer_transfer_box], when it returns: the
    withdrawn amounts of the charge rows of one type_class, and no type_class
    of the charge rows was charged more. *)
Theorem transfer_charge_total (df : DataFrame) (n : Z) :
  let charges := Transfer.charge_rows df in
  let class_total k :=
    sumZ (map withdrawn (filter (fun r => (type_class r =? k)%string) charges)) in
  match Transfer.customer_transfer_box df n with
  | Ok t =>
      (exists k, In k (map type_class charges)
                 /\ Transfer.totalcharges t = class_total k)
      /\ forall k, In k (map type_class charges) ->
                   class_total k <= Transfer.totalcharges t
  | Raise _ => charges = []
  end.
Proof.
  cbv zeta. unfold Transfer.customer_transfer_box.
  destruct (Transfer.transferChargesFrame df) as [|c cs] eqn:E; cbn [iloc_0].
  - now apply transferChargesFrame_nil.
  - cbn [Transfer.totalcharges].
    assert (Hgroup : forall x, In x (Transfer.transferChargesFrame df) ->
              In (fst x) (map type_class (Transfer.charge_rows df))
              /\ snd x = sumZ (map withdrawn
                                 (filter (fun r => (type_class r =? fst x)%string)
                                         (Transfer.charge_rows df)))).
    { intros x Hx. unfold Transfer.transferChargesFrame in Hx.
      apply sort_values_In in Hx. apply in_map_iff in Hx.
      destruct Hx as [[k rs] [<- Hin]]. cbn [fst snd]. split.
      - apply (groupby_keys type_class). now apply (in_map fst) in Hin.
      - apply groupby_In in Hin. rewrite Hin. do 2 f_equal.
        apply filter_ext. intros r. apply keqb_string. }
    split.
    + exists (fst c). apply Hgroup. rewrite E. now left.
    + intros k Hk.
      assert (Hin : In (k, sumZ (map withdrawn
                          (filter (fun r => (type_class r =? k)%string)
                                  (Transfer.charge_rows df))))
                       (Transfer.transferChargesFrame df)).
      { unfold Transfer.transferChargesFrame. apply sort_values_In.
        apply (groupby_keys type_class) in Hk. unfold keys in Hk.
        apply in_map_iff in Hk. destruct Hk as [[k' rs] [Ek Hin]].
        cbn [fst] in Ek. subst k'.
        apply in_map_iff. exists (k, rs). split; [|exact Hin].
        cbn [fst snd]. apply groupby_In in Hin. rewrite Hin. do 3 f_equal.
        apply filter_ext. intros r. apply keqb_string. }
      pose proof (descending_sort snd
                    (map (fun g => (fst g, sumZ (map withdrawn (snd g))))
                         (groupby type_class (Transfer.charge_rows df)))) as Hs.
      fold (Transfer.transferChargesFrame df) in Hs. rewrite E in Hs, Hin.
      destruct Hin as [Ec|Hin]; [rewrite Ec; cbn [snd]; lia|].
      apply StronglySorted_inv in Hs. destruct Hs as [_ Hs].
      rewrite Forall_forall in Hs. exact (Hs _ Hin).
Qed.

(** ** Principal rows and charge rows *)

Lemma filter_split_count {A : Type} (p : A -> bool) (l : list A) :
  count (filter p l) + count (filter (fun x => negb (p x)) l) = count l.
Proof.
  unfold count. induction l as [|x l IH]; [reflexivity|].
  cbn [filter]. destruct (p x); cbn [negb List.length];
    rewrite ?Nat2Z.inj_succ; lia.
Qed.

Lemma filter_andb {A : Type} (p q : A -> bool) (l : list A) :
  filter (fun x => p x && q x) l = filter q (filter p l).
Proof.
  induction l as [|x l IH]; [reflexivity|].
  cbn [filter]. destruct (p x); cbn [andb filter]; [|exact IH].
  destruct (q x); now rewrite IH.
Qed.

(** X11.  Every row of a category is counted once.  The pay-bill rows are the
    transactions [paybill_box] counts and the charge rows it sets aside; the
    customer-transfer rows are the transfers [customer_transfer_box] counts
    and its charge rows; [receive_money_box] counts every funds-received row,
    whatever its description. *)
Theorem category_rows_counted_once (df : DataFrame) (n : Z) :
  Paybill.totaltransactions (Paybill.paybill_box df n)
  + count (paybill_charge_rows df)
  = count (filter (fun r => Str.contains "Pay Bill" (type_class r)) df)
  /\ match Transfer.customer_transfer_box df n with
     | Ok t =>
         Transfer.totalTransactions t + count (Transfer.charge_rows df)
         = count (filter (fun r => Str.contains "Customer Transfer" (type_class r))
                         df)
     | Raise _ => Transfer.charge_rows df = []
     end
  /\ Receive.totalreceivedTransactions (Receive.receive_money_box df n)
     = count (filter (fun r => Str.contains "Funds received" (type_class r)) df).
Proof.
  split; [|split].
  - cbn [Paybill.paybill_box Paybill.totaltransactions].
    rewrite paybill_frame_count.
    unfold Paybill.principal, paybill_charge_rows.
    rewrite !filter_andb.
    rewrite Z.add_comm.
    apply (filter_split_count (fun r => Str.contains "Charge" (type_desc r))).
  - transfer_cases df n.
    unfold Transfer.frame. rewrite sort_values_sum, agg_withdrawn_count.
    unfold Transfer.cleaned.
    rewrite (map_count withdrawn _ _ (clean_entities_withdrawn _)).
    unfold Transfer.principal, Transfer.charge_rows. rewrite Z.add_comm.
    apply (filter_split_count
             (fun r => (type_desc r =? "of Funds Charge")%string)).
  - cbn [Receive.receive_money_box Receive.totalreceivedTransactions].
    rewrite receive_frame_count.
    unfold Receive.principal, Receive.individual, Receive.receiveFrame_business.
    rewrite !filter_andb. unfold count. rewrite length_app, Nat2Z.inj_add.
    fold (count (filter (fun r => negb (Str.contains "Business" (type_desc r)))
                        (filter (fun r => Str.contains "Funds received" (type_class r)) df))).
    fold (count (filter (fun r => Str.contains "Business" (type_desc r))
                        (filter (fun r => Str.contains "Funds received" (type_class r)) df))).
    rewrite Z.add_comm.
    apply (filter_split_count (fun r => Str.contains "Business" (type_desc r))).
Qed.

(** ** What the pay-bill pattern keeps of a cell *)

Section PaybillCell.

Import Str.

Lemma skip_space_split (s : string) :
  exists w, s = (w ++ skip_space s)%string /\ all_space w = true.
Proof.
  induction s as [|c s [w [E Hw]]]; [now exists ""|].
  cbn [skip_space]. destruct (is_space c) eqn:Ec.
  - exists (String c w). cbn [all_space append]. rewrite Ec, Hw, <- E. now split.
  - now exists "".
Qed.

Lemma strip_prefix_app (p s r : string) :
  strip_prefix p s = Some r -> s = (p ++ r)%string.
Proof.
  revert s. induction p as [|a p IH]; intros [|b s]; cbn [strip_prefix append];
    try discriminate; try (now intros [= ->]).
  destruct (Ascii.eqb_spec a b) as [->|Hne]; [|discriminate].
  intros E. now rewrite (IH _ E).
Qed.

Lemma space_plus_split (s r : string) :
  space_plus s = Some r ->
  exists w, s = (w ++ r)%string /\ all_space w = true /\ w <> "".
Proof.
  unfold space_plus. destruct s as [|c s]; [discriminate|].
  destruct (is_space c) eqn:Ec; [|discriminate]. intros [= <-].
  destruct (skip_space_split s) as [w [E Hw]].
  exists (String c w). cbn [append all_space]. rewrite Ec, Hw, <- E.
  repeat split. discriminate.
Qed.

Lemma single_line_app (x y : string) :
  single_line (x ++ y) = true -> single_line y = true.
Proof.
  induction x as [|c x IH]; cbn [append]; [auto|].
  intros E. apply single_line_cons in E. now apply IH.
Qed.

Lemma acc_alt_split (s a : string) :
  single_line s = true -> acc_alt s = Some a ->
  exists w1 w2,
    s = (w1 ++ "Acc." ++ w2 ++ a)%string
    /\ all_space w1 = true /\ w1 <> ""
    /\ all_space w2 = true /\ w2 <> "".
Proof.
  intros Hl. unfold acc_alt.
  destruct (space_plus s) as [s1|] eqn:E1; [|discriminate].
  destruct (strip_prefix "Acc." s1) as [s2|] eqn:E2; [|discriminate].
  destruct (space_plus s2) as [s3|] eqn:E3; [|discriminate].
  intros [= <-].
  destruct (space_plus_split _ _ E1) as (w1 & -> & H1 & N1).
  apply strip_prefix_app in E2. subst s1.
  destruct (space_plus_split _ _ E3) as (w2 & -> & H2 & N2).
  exists w1, w2.
  assert (L : line s3 = s3).
  { apply line_single.
    apply single_line_app in Hl.
    apply (single_line_app "Acc.") in Hl.
    now apply single_line_app in Hl. }
  rewrite L. now repeat split.
Qed.

(** On a cell of one line the pattern matches from the first character on,
    and the cell is its two groups with the separator between them, or the
    first group alone. *)
Lemma match_here_split (s : string) :
  single_line s = true ->
  exists b acc,
    match_here s = Some (b, acc)
    /\ match acc with
       | None => s = b
       | Some a =>
           exists w1 w2,
             s = (b ++ w1 ++ "Acc." ++ w2 ++ a)%string
             /\ all_space w1 = true /\ w1 <> ""
             /\ all_space w2 = true /\ w2 <> ""
       end.
Proof.
  induction s as [|c s IH]; intros Hl.
  - exists "", None. now split.
  - cbn [match_here].
    destruct (acc_alt (String c s)) as [a|] eqn:E.
    + exists "", (Some a). split; [reflexivity|].
      exact (acc_alt_split _ _ Hl E).
    + apply single_line_cons in Hl. destruct Hl as [HcLF Hl].
      assert (D : at_dollar (String c s) = false).
      { cbn [at_dollar]. destruct s; [exact HcLF|reflexivity]. }
      rewrite D, HcLF.
      destruct (IH Hl) as (b & acc & -> & Hacc).
      exists (String c b), acc. split; [reflexivity|].
      destruct acc as [a|].
      * destruct Hacc as (w1 & w2 & -> & Hw). exists w1, w2. now split.
      * now subst b.
Qed.

End PaybillCell.

(** X12.  What [paybill_box] extracts from a counterparty of one line: always a
    business name; without account reference the business name is the whole
    cell; with one, the cell is the business name, white space, Acc., white
    space and the account reference, so that nothing but the separator is
    lost. *)
Theorem paybill_split_loses_separator_only (s : string) :
  Str.single_line s = true ->
  exists b,
    fst (Str.extract s) = Some b
    /\ match snd (Str.extract s) with
       | None => s = b
       | Some a =>
           exists w1 w2,
             s = (b ++ w1 ++ "Acc." ++ w2 ++ a)%string
             /\ all_space w1 = true /\ w1 <> ""
             /\ all_space w2 = true /\ w2 <> ""
       end.
Proof.
  intros Hl. destruct (match_here_split s Hl) as (b & acc & M & Hacc).
  exists b. unfold Str.extract.
  assert (E : Str.search s = Some (b, acc)).
  { destruct s; cbn [Str.search]; now rewrite M. }
  rewrite E. now split.
Qed.

(** A cell with two spaces in front of the separator and a tab behind. *)
Lemma paybill_split_loses_separator_only_witness :
  let s := ("ZUKU FIBER  Acc." ++ String "009"%char "77 001")%string in
  Str.single_line s = true
  /\ Str.extract s = (Some "ZUKU FIBER", Some "77 001")
  /\ exists b, fst (Str.extract s) = Some b
       /\ match snd (Str.extract s) with
          | None => s = b
          | Some a =>
              exists w1 w2,
                s = (b ++ w1 ++ "Acc." ++ w2 ++ a)%string
                /\ all_space w1 = true /\ w1 <> ""
                /\ all_space w2 = true /\ w2 <> ""
          end.
Proof.
  intros s. split; [reflexivity|]. split; [reflexivity|].
  exact (paybill_split_loses_separator_only s eq_refl).
Defined.

(** ** The page *)

Lemma count_pos_cases {A : Type} (l : list A) :
  (0 <? count l) = match l with [] => false | _ :: _ => true end.
Proof.
  unfold count. destruct l as [|x l]; [reflexivity|].
  cbn [List.length]. rewrite Nat2Z.inj_succ.
  apply Z.ltb_lt. lia.
Qed.

Lemma merchantCount_ledger (df : DataFrame) (n : Z) :
  Merchant.merchantCount (Merchant.merchant_box df n)
  = count (Merchant.principal df).
Proof.
  cbn [Merchant.merchant_box Merchant.merchantCount]. unfold Merchant.frame.
  now rewrite sort_values_sum, agg_withdrawn_count.
Qed.

(** X13.  The pay-bill section hangs on the merchant payments: the page shows the
    Buy Goods and the PayBill sections when the ledger holds a merchant
    payment row, and neither of them, only a warning on merchant payments,
    when it holds none, whatever pay-bill rows it has. *)
Theorem paybill_section_hangs_on_merchants (df : DataFrame) (n : Z) :
  Page.merchant_sections df n
  = match Merchant.principal df with
    | [] => [Page.Warning "No merchant payments found in the provided statement."]
    | _ :: _ =>
        let m := Merchant.merchant_box df n in
        let p := Paybill.paybill_box df n in
        [Page.BuyGoods m (Page.most_frequent agg_entity agg_count n
                                             (Merchant.merchantFrame m));
         Page.Divider;
         Page.PayBill p (Page.most_frequent Paybill.p_entity2 Paybill.p_count n
                                            (Paybill.paybillFrame p));
         Page.Divider]
    end.
Proof.
  unfold Page.merchant_sections. cbv zeta.
  rewrite merchantCount_ledger, count_pos_cases.
  now destruct (Merchant.principal df).
Qed.

(** X14.  Without a transfer charge row the script ends in the [IndexError] of
    [customer_transfer_box]: the page stops below the merchant and pay-bill
    sections, and shows nothing of the transfers, the funds received, the
    withdrawals and the airtime.  With such a row the script runs to its end. *)
Theorem page_stops_without_transfer_charge (round_1 : Z -> Z) (df : DataFrame)
  (n : Z) :
  match Transfer.charge_rows df with
  | [] =>
      Page.page round_1 df n
      = (Page.Divider :: Page.merchant_sections df n, Some IndexError)
  | _ :: _ =>
      exists t,
        Transfer.customer_transfer_box df n = Ok t
        /\ Page.page round_1 df n
           = (((Page.Divider :: Page.merchant_sections df n)
                 ++ Page.transfer_sections t n
                 ++ Page.receive_sections df n
                 ++ Page.withdrawal_sections round_1 df n
                 ++ Page.airtime_sections df n)%list,
              None)
  end.
Proof.
  unfold Page.page.
  destruct (customer_transfer_box_cases df n) as [[C E]|[C (t & E & _)]];
    rewrite E.
  - now rewrite C.
  - destruct (Transfer.charge_rows df); [contradiction|].
    exists t. now split.
Qed.

Lemma astype_int_pos (cents : Z) : (0 <? astype_int cents) = (100 <=? cents).
Proof.
  pose proof (astype_int_drops cents) as H.
  unfold drops_fraction, KSh in H. destruct H as (_ & D & B & T & _).
  destruct (Z.leb_spec 100 cents); [apply Z.ltb_lt|apply Z.ltb_ge]; lia.
Qed.


(** ** The date range *)

Lemma midnight_le (d t : Z) :
  DateFilter.to_datetime d <= t <-> d <= DateFilter.date t.
Proof.
  unfold DateFilter.to_datetime, DateFilter.date, DateFilter.day.
  pose proof (Z.div_mod t 86400000000000 ltac:(lia)) as E.
  pose proof (Z.mod_pos_bound t 86400000000000 ltac:(lia)) as B.
  lia.
Qed.

Lemma le_midnight (d t : Z) :
  t <= DateFilter.to_datetime d
  <-> DateFilter.date t < d \/ t = DateFilter.to_datetime d.
Proof.
  unfold DateFilter.to_datetime, DateFilter.date, DateFilter.day.
  pose proof (Z.div_mod t 86400000000000 ltac:(lia)) as E.
  pose proof (Z.mod_pos_bound t 86400000000000 ltac:(lia)) as B.
  lia.
Qed.

(** X17.  With two dates picked, the filter keeps the rows from the start date
    on, up to the day before the end date; of the end date it keeps only a row
    stamped at midnight sharp. *)
Theorem date_range_excludes_end_day (df_cleaned : list DateFilter.Entry)
  (start_date end_date : Z) (x : DateFilter.Entry) :
  In x (DateFilter.filtered_df df_cleaned [start_date; end_date])
  <-> In x df_cleaned
      /\ start_date <= DateFilter.date (DateFilter.date_time x)
      /\ (DateFilter.date (DateFilter.date_time x) < end_date
          \/ DateFilter.date_time x = DateFilter.to_datetime end_date).
Proof.
  cbn [DateFilter.filtered_df]. rewrite filter_In, andb_true_iff.
  rewrite !Z.leb_le, midnight_le, le_midnight. reflexivity.
Qed.

Lemma earliest_le (e : DateFilter.Entry) (es : list DateFilter.Entry)
  (x : DateFilter.Entry) :
  In x (e :: es) -> DateFilter.earliest e es <= DateFilter.date_time x.
Proof.
  unfold DateFilter.earliest.
  induction es as [|y es IH]; cbn [map fold_right].
  - intros [->|[]]. lia.
  - intros [->|[->|Hx]].
    + specialize (IH (or_introl eq_refl)). lia.
    + lia.
    + specialize (IH (or_intror Hx)). lia.
Qed.

(** X18.  With the range the date input starts with, from the day of the first
    transaction to the day of the last, the filter keeps the rows of all days
    but the last; of the last day of the statement it keeps only a row
    stamped at midnight sharp. *)
Theorem default_range_drops_last_day (e : DateFilter.Entry)
  (es : list DateFilter.Entry) (x : DateFilter.Entry) :
  let last_day := DateFilter.date (DateFilter.latest e es) in
  In x (DateFilter.filtered_df (e :: es) (DateFilter.default_range e es))
  <-> In x (e :: es)
      /\ (DateFilter.date (DateFilter.date_time x) < last_day
          \/ DateFilter.date_time x = DateFilter.to_datetime last_day).
Proof.
  cbv zeta. unfold DateFilter.default_range.
  rewrite date_range_excludes_end_day.
  split; [tauto|]. intros [Hx Hd]. repeat split; try assumption.
  pose proof (earliest_le e es x Hx) as Hle.
  unfold DateFilter.date, DateFilter.day.
  apply Z.div_le_mono; lia.
Qed.

(** ** The toggles *)

(** X19.  Whatever the clicks, the two filters are never on together, and each
    toggle is disabled exactly while the other is on. *)
Theorem toggles_exclusive (clicks : list Toggles.click) :
  let s := Toggles.run clicks in
  Toggles.date_filter s && Toggles.month_filter s = false
  /\ Toggles.disable_month s = Toggles.date_filter s
  /\ Toggles.disable_date s = Toggles.month_filter s.
Proof.
  cbv zeta. unfold Toggles.run.
  assert (Inv : forall s,
             Toggles.date_filter s && Toggles.month_filter s = false
             /\ Toggles.disable_month s = Toggles.date_filter s
             /\ Toggles.disable_date s = Toggles.month_filter s ->
             let s' := fold_left Toggles.step clicks s in
             Toggles.date_filter s' && Toggles.month_filter s' = false
             /\ Toggles.disable_month s' = Toggles.date_filter s'
             /\ Toggles.disable_date s' = Toggles.month_filter s').
  { induction clicks as [|c clicks IH]; intros s Hs; [exact Hs|].
    cbn [fold_left]. apply IH.
    destruct s as [d m dd dm]. cbn in Hs. destruct Hs as (H1 & -> & ->).
    destruct c, d, m; cbn in *; auto; discriminate. }
  apply Inv. cbn. auto.
Qed.

(** ** The shape of the frames *)

Lemma count_nonempty {A : Type} (l : list A) : l <> [] -> 1 <= count l.
Proof.
  unfold count. destruct l; [contradiction|]. intros _.
  cbn [List.length]. lia.
Qed.

Lemma sorted_entity_table (asc : bool) (rows : DataFrame) :
  entity_table rows (sort_values agg_sum asc (agg_withdrawn rows)).
Proof.
  pose proof (sort_values_perm agg_sum asc (agg_withdrawn rows)) as P.
  split; [|split].
  - apply (Permutation_NoDup (Permutation_map agg_entity (Permutation_sym P))).
    apply (StronglySorted_NoDup klt); [apply klt_irrefl|].
    apply StronglySorted_map_inv, agg_withdrawn_sorted.
  - apply Forall_forall. intros a Ha. apply sort_values_In in Ha.
    unfold agg_withdrawn in Ha. apply in_map_iff in Ha.
    destruct Ha as [[k rs] [<- Hin]]. cbn [agg_count snd].
    apply count_nonempty.
    pose proof (groupby_nonempty entity rows) as Hne.
    rewrite Forall_forall in Hne. exact (Hne _ Hin).
  - intros e. rewrite <- agg_withdrawn_entities.
    split; apply Permutation_in;
      [|symmetry]; now apply Permutation_map.
Qed.

(** X20.  The frames of [merchant_box], [customer_transfer_box],
    [cash_withdrawal_box] and [airtime_box] hold one row for each entity of
    the rows they aggregate (the cleaned names, for the transfers), no entity
    twice, each with a count of one or more. *)
Theorem frames_one_row_per_entity (round_1 : Z -> Z) (df : DataFrame) (n : Z) :
  entity_table (Merchant.principal df)
               (Merchant.merchantFrame (Merchant.merchant_box df n))
  /\ match Transfer.customer_transfer_box df n with
     | Ok t => entity_table (Transfer.cleaned df) (Transfer.transferFrame t)
     | Raise _ => Transfer.charge_rows df = []
     end
  /\ entity_table (Withdrawal.principal df)
                  (Withdrawal.withdrawalFrame
                     (Withdrawal.cash_withdrawal_box round_1 df n))
  /\ entity_table (Airtime.principal df)
                  (Airtime.airtimeFrame (Airtime.airtime_box df n)).
Proof.
  split; [|split; [|split]].
  - apply sorted_entity_table.
  - transfer_cases df n. apply sorted_entity_table.
  - apply sorted_entity_table.
  - apply sorted_entity_table.
Qed.


(** Rows picked from a frame without repeated key have no repeated key. *)
Lemma picked_keys_NoDup {Frame Key : Type} (key : Frame -> Key)
  (keep : Frame -> bool) (rows : list Frame)
  (Hrows : NoDup (map key rows)) :
  NoDup (map key (filter keep rows)).
Proof.
  induction rows as [|x rows IH]; cbn [map filter]; [constructor|].
  cbn [map] in Hrows. apply NoDup_cons_iff in Hrows.
  destruct Hrows as [Hx Hrows].
  destruct (keep x); [|now apply IH].
  cbn [map]. constructor; [|now apply IH].
  intros Hin. apply Hx. apply in_map_iff in Hin.
  destruct Hin as [y [E Hy]]. apply filter_In in Hy.
  rewrite <- E. now apply in_map.
Qed.

(** X22.  Every row of the received-funds frame is tagged Individual or Business,
    and a sender name stands in at most two rows of the frame. *)
Theorem receive_frame_two_tags (df : DataFrame) (n : Z) (e : string) :
  let frame := Receive.receiveFrame (Receive.receive_money_box df n) in
  Forall (fun a => Receive.r_type_desc a = "Individual"
                   \/ Receive.r_type_desc a = "Business") frame
  /\ (List.length (filter (fun a => (Receive.r_entity a =? e)%string) frame)
      <= 2)%nat.
Proof.
  cbv zeta. cbn [Receive.receive_money_box Receive.receiveFrame].
  unfold Receive.frame.
  assert (Htag : forall a, In a (Receive.aggregate (Receive.tagged df)) ->
            Receive.r_type_desc a = "Individual"
            \/ Receive.r_type_desc a = "Business").
  { intros a Ha.
    destruct (receive_aggregate_In _ a Ha) as (Hne & _).
    destruct (filter _ (Receive.tagged df)) as [|r rs] eqn:F; [contradiction|].
    assert (Hr : In r (filter (fun r => (entity r =? Receive.r_entity a)%string
                                 && (type_desc r =? Receive.r_type_desc a)%string)
                         (Receive.tagged df))) by (rewrite F; now left).
    apply filter_In in Hr. destruct Hr as [Hr Hk].
    apply andb_prop in Hk. destruct Hk as [_ Hd].
    apply String.eqb_eq in Hd. rewrite <- Hd.
    unfold Receive.tagged in Hr. apply in_map_iff in Hr.
    destruct Hr as [r0 [<- _]]. cbn [type_desc set_type_desc].
    unfold Receive.tag. destruct (Str.endswith "from" (type_desc r0)); auto. }
  split; [apply Forall_forall; exact Htag|].
  set (l := filter _ _).
  rewrite <- (length_map Receive.key l).
  change 2%nat with (List.length [(e, "Individual"); (e, "Business")]).
  apply NoDup_incl_length.
  - subst l. apply picked_keys_NoDup.
    apply (StronglySorted_NoDup klt); [apply klt_irrefl|].
    apply receive_frame_keys_sorted.
  - intros k Hk. apply in_map_iff in Hk. destruct Hk as [a [<- Ha]].
    subst l. apply filter_In in Ha. destruct Ha as [Ha He].
    apply String.eqb_eq in He. unfold Receive.key. rewrite He.
    destruct (Htag a Ha) as [-> | ->]; [now left|right; now left].
Qed.

(** X16.  The sections of the funds received and of the withdrawals hang on the
    rows of the ledger: each is shown when the ledger holds a row of its
    category, and replaced by its warning otherwise. *)
Theorem sections_hang_on_rows (round_1 : Z -> Z) (df : DataFrame) (n : Z) :
  Page.receive_sections df n
  = match Receive.principal df with
    | [] => [Page.Warning
               "No received money transactions found in the provided statement."]
    | _ :: _ =>
        let r := Receive.receive_money_box df n in
        [Page.ReceivedMoney r
           (Page.most_frequent Receive.r_entity Receive.r_count n
                               (Receive.receiveFrame r))]
    end
  /\ Page.withdrawal_sections round_1 df n
     = match Withdrawal.principal df with
       | [] => [Page.Warning
                  "No cash withdrawal transactions found in the provided statement.";
                Page.Divider]
       | _ :: _ =>
           let w := Withdrawal.cash_withdrawal_box round_1 df n in
           [Page.CashWithdrawals w
              (Page.most_frequent agg_entity agg_count n
                                  (Withdrawal.withdrawalFrame w))]
       end.
Proof.
  split.
  - unfold Page.receive_sections. cbv zeta.
    cbn [Receive.receive_money_box Receive.totalreceivedTransactions].
    rewrite receive_frame_count, count_pos_cases.
    now destruct (Receive.principal df).
  - unfold Page.withdrawal_sections. cbv zeta.
    cbn [Withdrawal.cash_withdrawal_box Withdrawal.totalWithdrawals].
    unfold Withdrawal.frame.
    rewrite sort_values_sum, agg_withdrawn_count, count_pos_cases.
    now destruct (Withdrawal.principal df).
Qed.
